(** * Jaseci: transport envelope, request binding and settings

    A shallow embedding of three parts of the repository:

    - the client-side reader of the transport envelope
      ([_extract_transport_response_data] of the jac-scale upload tests)
      and the way the two test clients assemble multipart requests;
    - [jaclang/settings.py]: the [Settings] object, its conversion of
      textual values and the order in which its sources are merged;
    - the request binder, the upload value and the API description, which
      live in the server modules and are modelled from the specification.

    Python values are embedded as the inductive type [pyval]; a [dict]
    with string keys is a [gmap string pyval] (Python compares dicts
    without regard to insertion order, and none of the embedded functions
    iterates over a JSON object).  A Python [str] is a Rocq [string] whose
    characters are read as the code points 0..255. *)

From Stdlib Require Import ZArith String Ascii List Bool Lia.
From Stdlib Require Import Decimal DecimalString DecimalZ Permutation.
From Stdlib Require Import Floats.SpecFloat.
From stdpp Require Import base option gmap strings list fin_maps.

Set Warnings "-register-all,-clear-no-such-hyp".
#[local] Open Scope string_scope.

(* ===================================================================== *)
(** * Python values and exceptions *)
(* ===================================================================== *)

Module Py.

(** The values that [json.loads] produces and that a [Settings] attribute
    can hold.  A [float] is an IEEE value without payload. *)
Inductive pyval : Type :=
| PNone
| PBool (b : bool)
| PInt (n : Z)
| PFloat (f : spec_float)
| PStr (s : string)
| PList (l : list pyval)
| PDict (d : gmap string pyval).

(** The exceptions the embedded code can raise. *)
Inductive exn : Type :=
| AttributeError (attr : string)
| KeyError (key : string)
| ValueError (msg : string)
| TypeError (msg : string)
| AssertionError
| ConfigParserError (cls : string)
| InterpolationSyntaxError (opt sec : string)
| InterpolationMissingOptionError (opt sec reference : string)
| InterpolationDepthError (opt sec : string).

(** A computation that returns a value or stops with an error. *)
Inductive res (E A : Type) : Type :=
| Ok (a : A)
| Raise (e : E).
Arguments Ok {E A} a.
Arguments Raise {E A} e.

#[export] Instance res_ret {E} : MRet (res E) := fun A a => Ok a.

#[export] Instance res_bind {E} : MBind (res E) := fun A B k r =>
  match r with
  | Ok a => k a
  | Raise e => Raise e
  end.

#[export] Instance res_fmap {E} : FMap (res E) := fun A B f r =>
  match r with
  | Ok a => Ok (f a)
  | Raise e => Raise e
  end.

(** A Python computation: a value or an exception. *)
Abbreviation result := (res exn).

(** [bool(v)]: Python truthiness. *)
Definition truthy (v : pyval) : bool :=
  match v with
  | PNone => false
  | PBool b => b
  | PInt n => negb (n =? 0)%Z
  | PFloat (S754_zero _) => false
  | PFloat _ => true
  | PStr s => negb (String.eqb s "")
  | PList l => match l with [] => false | _ => true end
  | PDict d => negb (bool_decide (d = ∅))
  end.

(** [v is None] *)
Definition is_none (v : pyval) : bool :=
  match v with PNone => true | _ => false end.

(** [k in d] *)
Definition contains (d : gmap string pyval) (k : string) : bool :=
  bool_decide (is_Some (d !! k)).

(** [d.get(k)] and [d.get(k, dflt)] *)
Definition get (d : gmap string pyval) (k : string) : pyval :=
  default PNone (d !! k).

Definition get_or (d : gmap string pyval) (k : string) (dflt : pyval) : pyval :=
  default dflt (d !! k).

(** [for x in l: s = body(x, s)], stopping at the first exception. *)
Fixpoint for_each {E A S : Type} (body : A -> S -> res E S) (l : list A) (s : S)
  : res E S :=
  match l with
  | [] => Ok s
  | x :: l' => s' ← body x s; for_each body l' s'
  end.

(** [v.get(k, dflt)] on any value: only a dict has the method. *)
Definition get_method (v : pyval) (k : string) (dflt : pyval) : result pyval :=
  match v with
  | PDict d => Ok (get_or d k dflt)
  | _ => Raise (AttributeError "get")
  end.

(** [v[k]] for a string key: a dict is looked up, nothing else in a JSON
    document can be indexed by a string. *)
Definition subscript (v : pyval) (k : string) : result pyval :=
  match v with
  | PDict d => match d !! k with Some x => Ok x | None => Raise (KeyError k) end
  | _ => Raise (TypeError "indices")
  end.

(** [k in v] for a string [k]: a key of a dict, an element of a list, a
    substring of a string; the other JSON values are not containers. *)
Definition py_in (k : string) (v : pyval) : result bool :=
  match v with
  | PDict d => Ok (contains d k)
  | PList l =>
      Ok (existsb (fun x => match x with PStr s => String.eqb s k | _ => false end) l)
  | PStr s => Ok (match String.index 0 k s with Some _ => true | None => false end)
  | _ => Raise (TypeError "not iterable")
  end.

(** [d[k]] *)
Definition getitem (d : gmap string pyval) (k : string) : result pyval :=
  match d !! k with
  | Some v => Ok v
  | None => Raise (KeyError k)
  end.

End Py.

Import Py.

(* ===================================================================== *)
(** * The transport envelope as read by the client *)
(* ===================================================================== *)

Module Transport.

(** The [result] dict of the error branch: [error] always, [error_code]
    and [error_details] when the error object has the key. *)
Definition error_result (error_info : gmap string pyval) : result pyval :=
  let result := {[ "error" := get_or error_info "message" (PStr "Unknown error") ]} in
  result ←
    (if contains error_info "code"
     then c ← getitem error_info "code"; Ok (<["error_code" := c]> result)
     else Ok result);
  result ←
    (if contains error_info "details"
     then d ← getitem error_info "details"; Ok (<["error_details" := d]> result)
     else Ok result);
  Ok (PDict result).

(** [TestJacScaleFileUpload._extract_transport_response_data].  The pair
    form is unwrapped first; an object with both [ok] and [data] is read as
    an envelope; everything else is handed back unchanged.  Calling [.get]
    on an [error] that is not an object raises [AttributeError]. *)
Definition _extract_transport_response_data (json_response : pyval) : result pyval :=
  let json_response :=
    match json_response with
    | PList [_; body] => body
    | _ => json_response
    end in
  match json_response with
  | PDict d =>
      if contains d "ok" && contains d "data" then
        if truthy (get d "ok") && negb (is_none (get d "data")) then
          getitem d "data"
        else if negb (truthy (get d "ok")) && truthy (get d "error") then
          error_info ← getitem d "error";
          match error_info with
          | PDict e => error_result e
          | _ => Raise (AttributeError "get")
          end
        else Ok json_response
      else Ok json_response
  | _ => Ok json_response
  end.

(** ** The multipart requests the test clients send *)

(** One part of a multipart/form-data body. *)
Inductive part : Type :=
| TextPart (name value : string)
| FilePart (name filename content_type : string) (content : list Byte.byte).

(** [request_multipart] / [_request_multipart]: the parts of the body in
    the order they are written, the regular form fields first and the
    files after them.  [files] maps a field name to
    [(filename, content, content_type)]; both dicts are given in insertion
    order. *)
Definition request_multipart
    (files : list (string * (string * list Byte.byte * string)))
    (fields : list (string * string)) : list part :=
  ((fun nv => TextPart nv.1 nv.2) <$> fields) ++
  ((fun nf => FilePart nf.1 nf.2.1.1 nf.2.2 nf.2.1.2) <$> files).

(** ** The request body of the jac test client, byte by byte *)

(** [s.encode()]: UTF-8, one byte below 128 and two bytes from 128 to 255. *)
Definition encode_char (c : ascii) : list Byte.byte :=
  let n := N_of_ascii c in
  if (n <? 128)%N then [byte_of_ascii c]
  else [ byte_of_ascii (ascii_of_N (192 + n / 64));
         byte_of_ascii (ascii_of_N (128 + n mod 64)) ].

Fixpoint encode (s : string) : list Byte.byte :=
  match s with
  | EmptyString => []
  | String c s' => (encode_char c ++ encode s')%list
  end.

Definition crlf : string := String "013"%char (String "010"%char "").

Definition dquote : string := String "034"%char "".

Definition boundary : string := "----WebKitFormBoundary7MA4YWxkTrZu0gW".

(** The three chunks [request_multipart] appends for a regular form
    field. *)
Definition field_chunks (name value : string) : list (list Byte.byte) :=
  [ encode ("--" ++ boundary ++ crlf);
    encode ("Content-Disposition: form-data; name=" ++ dquote ++ name ++ dquote
            ++ crlf ++ crlf);
    encode (value ++ crlf) ].

(** The five chunks it appends for a file. *)
Definition file_chunks (field_name filename : string) (content : list Byte.byte)
    (content_type : string) : list (list Byte.byte) :=
  [ encode ("--" ++ boundary ++ crlf);
    encode ("Content-Disposition: form-data; name=" ++ dquote ++ field_name
            ++ dquote ++ "; filename=" ++ dquote ++ filename ++ dquote ++ crlf);
    encode ("Content-Type: " ++ content_type ++ crlf ++ crlf);
    content;
    encode crlf ].

(** [body_parts] of [FileUploadServerFixture.request_multipart]: the
    chunks of the fields, then those of the files, then the closing
    delimiter. *)
Definition body_parts
    (files : list (string * (string * list Byte.byte * string)))
    (fields : list (string * string)) : list (list Byte.byte) :=
  let body_parts : list (list Byte.byte) := [] in
  let body_parts :=
    foldl (fun acc nv => (acc ++ field_chunks nv.1 nv.2)%list) body_parts fields in
  let body_parts :=
    foldl (fun acc nf => (acc ++ file_chunks nf.1 nf.2.1.1 nf.2.1.2 nf.2.2)%list)
          body_parts files in
  (body_parts ++ [ encode ("--" ++ boundary ++ "--" ++ crlf) ])%list.

(** [body = b"".join(body_parts)] *)
Definition multipart_body
    (files : list (string * (string * list Byte.byte * string)))
    (fields : list (string * string)) : list Byte.byte :=
  concat (body_parts files fields).

(** The bytes one part of the body stands for. *)
Definition part_bytes (p : part) : list Byte.byte :=
  match p with
  | TextPart name value => concat (field_chunks name value)
  | FilePart name filename content_type content =>
      concat (file_chunks name filename content content_type)
  end.

(** ** The token of a registration *)

(** [FileUploadServerFixture.register_user], from the parsed response on:
    [data = result.get("data", result)], then [data.get("token", "")]. *)
Definition register_user (response : pyval) : result pyval :=
  data ← get_method response "data" response;
  get_method data "token" (PStr "").

(** ** Reading the reports *)

(** The opening of every upload test of jac-scale: [reports] has to be a
    key of the extracted result and the list has to hold a report; the
    first one is examined. *)
Definition first_report (result : pyval) : res exn pyval :=
  has ← py_in "reports" result;
  _ ← (if has : bool then Ok tt else Raise AssertionError);
  reports ← subscript result "reports";
  match reports with
  | PList (report :: _) => Ok report
  | PStr (String c _) => Ok (PStr (String c ""))
  | PList [] | PStr EmptyString => Raise AssertionError
  | PDict d => if bool_decide (d = ∅) then Raise AssertionError
               else Raise (KeyError "0")
  | _ => Raise (TypeError "len")
  end.

(** What a jac-scale test sees of a response: the extracted envelope,
    then its first report. *)
Definition examined (json_response : pyval) : result pyval :=
  extracted ← _extract_transport_response_data json_response;
  first_report extracted.

(** ** Reading the API description *)

(** [test_openapi_schema_has_file_upload] for an endpoint [path]: the
    [requestBody.content] object of its [post] operation.  The path has to
    be listed. *)
Definition request_content (schema : pyval) (path : string) : result pyval :=
  paths ← get_method schema "paths" (PDict ∅);
  listed ← py_in path paths;
  _ ← (if listed : bool then Ok tt else Raise AssertionError);
  endpoint ← subscript paths path;
  post_spec ← subscript endpoint "post";
  request_body ← get_method post_spec "requestBody" (PDict ∅);
  get_method request_body "content" (PDict ∅).

(** The final assertion of the test, as a boolean. *)
Definition accepts_multipart (schema : pyval) (path : string) : result bool :=
  content ← request_content schema path;
  py_in "multipart/form-data" content.

End Transport.

(* ===================================================================== *)
(** * jaclang/settings.py *)
(* ===================================================================== *)

Module Settings.

(** ** The [str] methods the module uses, on code points 0..255 *)

Definition code (c : ascii) : N := N_of_ascii c.

Definition in_range (lo hi : N) (c : ascii) : bool :=
  ((lo <=? code c) && (code c <=? hi))%N.

(** The decimal digits ['0'..'9'], the only characters below 256 that
    [int] accepts as digits. *)
Definition is_decimal (c : ascii) : bool := in_range 48 57 c.

(** [c.isdigit()]: the decimal digits and the superscripts U+00B2, U+00B3
    and U+00B9, which have the Unicode property Digit and are not decimal. *)
Definition char_isdigit (c : ascii) : bool :=
  is_decimal c || (code c =? 178)%N || (code c =? 179)%N || (code c =? 185)%N.

Fixpoint all_chars (p : ascii -> bool) (s : string) : bool :=
  match s with
  | EmptyString => true
  | String c s' => p c && all_chars p s'
  end.

(** [s.isdigit()]: at least one character, all of them digits. *)
Definition isdigit (s : string) : bool :=
  match s with
  | EmptyString => false
  | _ => all_chars char_isdigit s
  end.

(** [c.lower()]: ['A'..'Z'] and the capital letters U+00C0..U+00DE (the
    multiplication sign U+00D7 apart) move up by 32. *)
Definition char_lower (c : ascii) : ascii :=
  if in_range 65 90 c || (in_range 192 222 c && negb (code c =? 215)%N)
  then ascii_of_N (code c + 32)
  else c.

Fixpoint lower (s : string) : string :=
  match s with
  | EmptyString => EmptyString
  | String c s' => String (char_lower c) (lower s')
  end.

(** [s.upper()] on the ASCII letters; the module applies it to field
    names only, which are ASCII identifiers. *)
Definition char_upper (c : ascii) : ascii :=
  if in_range 97 122 c then ascii_of_N (code c - 32) else c.

Fixpoint upper (s : string) : string :=
  match s with
  | EmptyString => EmptyString
  | String c s' => String (char_upper c) (upper s')
  end.

(** The value of a run of decimal digits, most significant first. *)
Fixpoint digits_value (acc : Z) (s : string) : Z :=
  match s with
  | EmptyString => acc
  | String c s' => digits_value (10 * acc + Z.of_N (code c - 48)) s'
  end.

(** [len(s)] *)
Definition len (s : string) : N := N.of_nat (String.length s).

(** The number of decimal digits a string starts with: [int] counts them
    before it looks at what follows. *)
Fixpoint leading_digits (s : string) : N :=
  match s with
  | EmptyString => 0
  | String c s' => if is_decimal c then N.succ (leading_digits s') else 0
  end.

(** [sys.int_info.default_max_str_digits], the interpreter's limit on the
    number of digits of a decimal literal that [int] converts. *)
Definition max_str_digits : N := 4300.

(** [str(n)] for a natural number. *)
Definition decimal (n : N) : string := NilZero.string_of_uint (N.to_uint n).

(** The two [ValueError]s of [int]: a string that is no decimal literal
    (the message carries [repr(s)], which for a string of digit characters
    is the string between quotes), and a literal with more digits than the
    limit. *)
Definition invalid_literal (s : string) : exn :=
  ValueError ("invalid literal for int() with base 10: '" ++ s ++ "'").

Definition exceeds_limit (digits : N) : exn :=
  ValueError ("Exceeds the limit (4300 digits) for integer string conversion: value has "
              ++ decimal digits
              ++ " digits; use sys.set_int_max_str_digits() to increase the limit").

(** [int(s)] for a string of digit characters, which is what [isdigit]
    lets through.  The digits at the start are counted first, and more of
    them than the limit is a [ValueError] whatever follows; otherwise the
    result is the value when there is at least one character and every
    character is a decimal digit, and a [ValueError] for the empty string
    and for a superscript digit.  (Signs, blanks and underscores, which
    [int] accepts elsewhere, do not pass [isdigit].) *)
Definition int (s : string) : result Z :=
  if (max_str_digits <? leading_digits s)%N then
    Raise (exceeds_limit (leading_digits s))
  else
    match s with
    | EmptyString => Raise (invalid_literal s)
    | _ =>
        if all_chars is_decimal s then Ok (digits_value 0 s)
        else Raise (invalid_literal s)
    end.

(** ** Conversion of textual values *)

(** [Settings.str_to_bool] *)
Definition str_to_bool (value : string) : bool :=
  bool_decide (lower value ∈ ["yes"; "y"; "true"; "t"; "1"]).

(** [Settings.convert_type] *)
Definition convert_type (value : string) : result pyval :=
  if isdigit value then
    n ← int value; Ok (PInt n)
  else if bool_decide (lower value ∈
            ["true"; "false"; "t"; "f"; "yes"; "no"; "y"; "n"; "1"; "0"]) then
    Ok (PBool (str_to_bool value))
  else Ok (PStr value).

(** ** The settings object *)

(** [fields(self)], in declaration order. *)
Definition field_names : list string :=
  [ "fuse_type_info_debug"; "filter_sym_builtins"; "ast_symbol_info_detailed";
    "pass_timer"; "collect_py_dep_debug"; "print_py_raised_ast";
    "disable_mtllm"; "ignore_test_annex"; "max_line_length"; "lsp_debug";
    "remote_module_handling"; "modules_to_remote"; "pod_manager_url";
    "module_config" ].

Definition module_spec (mem : string) (deps : list string) (cpu : string) : pyval :=
  PDict (list_to_map
    [ ("lib_mem_size_req", PStr mem);
      ("dependency", PList (PStr <$> deps));
      ("lib_cpu_req", PStr cpu);
      ("load_type", PStr "remote") ]).

(** The [default_factory] of [module_config]. *)
Definition default_module_config : pyval :=
  PDict (list_to_map
    [ ("numpy", module_spec "100Mi" ["math"; "mkl"] "500m");
      ("pandas", module_spec "200Mi" ["numpy"; "pytz"; "dateutil"] "700m");
      ("transformers", module_spec "2000Mi" ["torch"; "transformers"] "1.0");
      ("ollama", module_spec "300Mi" ["ollama"] "500m") ]).

(** The attributes of an instance (its [__dict__]) right after the
    generated [__init__] ran without arguments. *)
Definition defaults : gmap string pyval :=
  list_to_map
    [ ("fuse_type_info_debug", PBool false);
      ("filter_sym_builtins", PBool true);
      ("ast_symbol_info_detailed", PBool false);
      ("pass_timer", PBool false);
      ("collect_py_dep_debug", PBool false);
      ("print_py_raised_ast", PBool false);
      ("disable_mtllm", PBool false);
      ("ignore_test_annex", PBool false);
      ("max_line_length", PInt 88);
      ("lsp_debug", PBool false);
      ("remote_module_handling", PBool true);
      ("modules_to_remote", PNone);
      ("pod_manager_url", PStr "http://smartimport.apps.bcstechnology.com.au");
      ("module_config", default_module_config) ].

(** ** The configuration file as [ConfigParser] shows it *)

(** A section of a parsed INI file as the parser stores it: the option
    names in their order (lower case, as [optionxform] leaves them), each
    with its raw value. *)
Abbreviation section := (list (string * string)).

(** The raw value of the first option of that name. *)
Fixpoint option_value (sec : section) (key : string) : option string :=
  match sec with
  | [] => None
  | (k, v) :: sec' => if String.eqb k key then Some v else option_value sec' key
  end.

Definition has_option (sec : section) (key : string) : bool :=
  match option_value sec key with Some _ => true | None => false end.

(** What a section proxy maps ([_unify_values], [options]): the options of
    the section, then the options of [DEFAULT] that the section does not
    have. *)
Definition unify (own defaults : section) : section :=
  own ++ List.filter (fun kv => negb (has_option own kv.1)) defaults.

(** [list(proxy)]: the option names a section proxy iterates over. *)
Definition options (own defaults : section) : list string :=
  (unify own defaults).*1.

(** ["%" in v] *)
Definition has_percent (v : string) : bool :=
  negb (all_chars (fun c => negb (Ascii.eqb c "%")) v).

(** [BasicInterpolation._interpolate_some] at one depth, as a scanner.
    Outside a reference ([name = None]) the text is copied, [%%] gives a
    percent sign, [%(] opens a reference and any other [%] is a syntax
    error.  Inside a reference ([name = Some acc]) the name runs to the
    first closing parenthesis, has to be non-empty and followed by [s]
    (the pattern [%\(([^)]+)\)s]); the name is looked up in lower case, and
    a value that holds a percent sign is interpolated in turn, one level
    [deeper]. *)
Fixpoint interpolate_some (deeper : string -> result string) (map : section)
    (opt sec : string) (name : option string) (rest : string) : result string :=
  match name, rest with
  | None, EmptyString => Ok ""
  | None, String c rest' =>
      if Ascii.eqb c "%" then
        match rest' with
        | String c' rest'' =>
            if Ascii.eqb c' "%" then
              String "%" <$> interpolate_some deeper map opt sec None rest''
            else if Ascii.eqb c' "(" then
              interpolate_some deeper map opt sec (Some "") rest''
            else Raise (InterpolationSyntaxError opt sec)
        | EmptyString => Raise (InterpolationSyntaxError opt sec)
        end
      else String c <$> interpolate_some deeper map opt sec None rest'
  | Some acc, EmptyString => Raise (InterpolationSyntaxError opt sec)
  | Some acc, String c rest' =>
      if Ascii.eqb c ")" then
        match acc, rest' with
        | String _ _, String c' rest'' =>
            if Ascii.eqb c' "s" then
              match option_value map (lower acc) with
              | Some v =>
                  pre ← (if has_percent v then deeper v else Ok v);
                  post ← interpolate_some deeper map opt sec None rest'';
                  Ok (pre ++ post)
              | None => Raise (InterpolationMissingOptionError opt sec (lower acc))
              end
            else Raise (InterpolationSyntaxError opt sec)
        | _, _ => Raise (InterpolationSyntaxError opt sec)
        end
      else interpolate_some deeper map opt sec (Some (acc ++ String c "")) rest'
  end.

(** Interpolation with [depth] levels left; a reference that leads deeper
    than that is an [InterpolationDepthError]. *)
Fixpoint interpolate (depth : nat) (map : section) (opt sec : string)
    (value : string) : result string :=
  match depth with
  | O => Raise (InterpolationDepthError opt sec)
  | S depth =>
      interpolate_some (interpolate depth map opt sec) map opt sec None value
  end.

(** [MAX_INTERPOLATION_DEPTH] *)
Definition max_interpolation_depth : nat := 10.

(** [proxy[key]] for the proxy of section [name]: the option is looked up
    in lower case among the options of the section and of [DEFAULT], and
    its raw value is interpolated over the same options. *)
Definition section_get (name : string) (own defaults : section) (key : string)
  : result string :=
  match option_value (unify own defaults) (lower key) with
  | Some raw =>
      interpolate max_interpolation_depth (unify own defaults) (lower key) name raw
  | None => Raise (KeyError key)
  end.

(** [dict(proxy)]: every option the proxy iterates over with the value the
    proxy gives for it. *)
Definition section_dict (name : string) (own defaults : section) : result pyval :=
  d ← for_each (fun key (d : gmap string pyval) =>
         v ← section_get name own defaults key;
         Ok (<[key := PStr v]> d)) (options own defaults) ∅;
  Ok (PDict d).

(** ** The ambient state the module reads *)

(** What the process finds around it: the user's home directory; the
    sections of [~/.jaclang/config.ini] when the file exists, by their
    names, [DEFAULT] included; the exception that [ConfigParser.read]
    raises on the file when it exists and cannot be parsed; and
    [os.environ]. *)
Record world : Type := World {
  home_dir : string;
  config_file : option (gmap string section);
  config_error : option exn;
  environ : gmap string string
}.

(** [ConfigParser().read(path)]: a missing file leaves the parser empty,
    and a file that cannot be parsed raises. *)
Definition read_config (w : world) : result (gmap string section) :=
  match config_file w with
  | None => Ok ∅
  | Some sections =>
      match config_error w with
      | Some e => Raise e
      | None => Ok sections
      end
  end.

(** The options of [DEFAULT], which every section falls back on. *)
Definition default_section (config_parser : gmap string section) : section :=
  default [] (config_parser !! "DEFAULT").

(** [getattr(self, name)] *)
Definition getattr (self : gmap string pyval) (name : string) : result pyval :=
  match self !! name with
  | Some v => Ok v
  | None => Raise (AttributeError name)
  end.

(** ** Loading *)

(** [Settings.load_config_file].  The test ["settings" in config_parser]
    holds when the file has the section (the name is not [DEFAULT]). *)
Definition load_config_file (w : world) (self : gmap string pyval)
  : result (gmap string pyval) :=
  config_parser ← read_config w;
  match config_parser !! "settings" with
  | Some own =>
      for_each (fun key self =>
        if bool_decide (key ∈ field_names) then
          raw ← section_get "settings" own (default_section config_parser) key;
          v ← convert_type raw;
          Ok (<[key := v]> self)
        else Ok self) (options own (default_section config_parser)) self
  | None => Ok self
  end.

(** The value [load_env_vars] takes for a field: [JACLANG_<NAME>] when set,
    else [JAC_<NAME>]. *)
Definition env_value (w : world) (key : string) : option string :=
  match environ w !! ("JACLANG_" ++ upper key) with
  | Some v => Some v
  | None => environ w !! ("JAC_" ++ upper key)
  end.

(** [Settings.load_env_vars] *)
Definition load_env_vars (w : world) (self : gmap string pyval)
  : result (gmap string pyval) :=
  self ← for_each (fun key self =>
            match env_value w key with
            | Some raw => v ← convert_type raw; Ok (<[key := v]> self)
            | None => Ok self
            end) field_names self;
  url ← getattr self "pod_manager_url";
  Ok (<["pod_manager_url" := default url (PStr <$> environ w !! "POD_MANAGER_URL")]> self).

(** [Settings.load_modules_to_remote] *)
Definition load_modules_to_remote (w : world) (self : gmap string pyval)
  : result (gmap string pyval) :=
  config_parser ← read_config w;
  self ← match config_parser !! "modules" with
         | Some own =>
             d ← section_dict "modules" own (default_section config_parser);
             Ok (<["module_config" := d]> self)
         | None => Ok self
         end;
  mc ← getattr self "module_config";
  Ok (<["modules_to_remote" := mc]> self).

(** [Settings.load_all] *)
Definition load_all (w : world) (self : gmap string pyval)
  : result (gmap string pyval) :=
  self ← load_config_file w self;
  self ← load_env_vars w self;
  load_modules_to_remote w self.

(** The first lines of [__post_init__] on the file system: the
    configuration file is created with an empty [settings] section when it
    does not exist. *)
Definition ensure_config (w : world) : world :=
  match config_file w with
  | Some _ => w
  | None => World (home_dir w) (Some {[ "settings" := [] ]}) None (environ w)
  end.

(** [os.path.join(a, b)] for a relative [b]. *)
Definition path_join (a b : string) : string :=
  match a with
  | EmptyString => b
  | _ => if String.eqb (substring (String.length a - 1) 1 a) "/"
         then a ++ b else a ++ "/" ++ b
  end.

(** [Settings.__post_init__]: the path of the configuration file is
    recorded, the file is created when missing, and everything is loaded.
    Returns the instance and the world it leaves behind. *)
Definition __post_init__ (w : world) (self : gmap string pyval)
  : result (gmap string pyval * world) :=
  let config_dir := path_join (home_dir w) ".jaclang" in
  let config_file_path := path_join config_dir "config.ini" in
  let self := <["config_file_path" := PStr config_file_path]> self in
  let w := ensure_config w in
  self ← load_all w self;
  Ok (self, w).

(** The module-level [settings = Settings()]. *)
Definition settings (w : world) : result (gmap string pyval * world) :=
  __post_init__ w defaults.

(** ** The merge order, as a specification *)

(** What the configuration file gives for a field: nothing when the file
    has no [settings] section or the section (with [DEFAULT]) has no such
    option, else the text the section proxy returns, or the error of its
    interpolation. *)
Definition config_text (w : world) (f : string) : option (result string) :=
  match read_config w with
  | Ok config_parser =>
      own ← config_parser !! "settings";
      if bool_decide (f ∈ options own (default_section config_parser))
      then Some (section_get "settings" own (default_section config_parser) f)
      else None
  | Raise _ => None
  end.

(** The text that decides a field: [JACLANG_<NAME>], else [JAC_<NAME>],
    else the configuration file. *)
Definition merged_text (w : world) (f : string) : option (result string) :=
  match environ w !! ("JACLANG_" ++ upper f) with
  | Some v => Some (Ok v)
  | None =>
      match environ w !! ("JAC_" ++ upper f) with
      | Some v => Some (Ok v)
      | None => config_text w f
      end
  end.

(** [convert_type] on what the file or the environment gave. *)
Definition convert_text (text : result string) : result pyval :=
  raw ← text; convert_type raw.

(** The step that the loops of the loading make for a key: the attribute
    is set when a value was found for it. *)
Definition set_found (found : string -> option (result pyval)) (key : string)
    (self : gmap string pyval) : result (gmap string pyval) :=
  match found key with
  | Some r => v ← r; Ok (<[key := v]> self)
  | None => Ok self
  end.

(** What was found for a key does not stop the loop. *)
Definition found_ok (found : option (result pyval)) : bool :=
  match found with
  | Some (Raise _) => false
  | _ => true
  end.

(** An attribute after such a step: the value found when there is one, the
    earlier value otherwise. *)
Definition settled (found : option (result pyval)) (before after : option pyval)
  : Prop :=
  match found with
  | Some r => exists v, r = Ok v /\ after = Some v
  | None => after = before
  end.

(** An attribute after a merge step: the conversion of the deciding text
    when there is one, the earlier value otherwise. *)
Definition decided (text : option (result string)) (before after : option pyval)
  : Prop :=
  settled (convert_text <$> text) before after.

(** The texts on which [convert_type] returns: everything except a string
    of digit characters that holds a superscript digit or has more than
    4300 characters. *)
Definition convertible (raw : string) : bool :=
  negb (isdigit raw) ||
  (all_chars is_decimal raw && (len raw <=? max_str_digits)%N).

(** An instance has its fields, as after the generated [__init__]. *)
Definition has_fields (self : gmap string pyval) : Prop :=
  forall f, f ∈ field_names -> is_Some (self !! f).

(** A consulted text does not stop the loading: it is there without an
    interpolation error and is convertible, or there is none. *)
Definition text_ok (text : option (result string)) : bool :=
  match text with
  | Some (Ok raw) => convertible raw
  | Some (Raise _) => false
  | None => true
  end.

(** What [dict(config_parser["modules"])] gives, when the file has the
    section. *)
Definition modules_dict (w : world) : option (result pyval) :=
  match read_config w with
  | Ok config_parser =>
      own ← config_parser !! "modules";
      Some (section_dict "modules" own (default_section config_parser))
  | Raise _ => None
  end.

(** Every option of the [modules] section, and of [DEFAULT] with it,
    interpolates. *)
Definition modules_ok (w : world) : bool :=
  match read_config w with
  | Ok config_parser =>
      match config_parser !! "modules" with
      | Some own =>
          forallb (fun key =>
              match section_get "modules" own (default_section config_parser) key with
              | Ok _ => true
              | Raise _ => false
              end) (options own (default_section config_parser))
      | None => true
      end
  | Raise _ => false
  end.

(** Nothing stops the loading: the configuration file parses, every text
    consulted for a field (the option of the file, the selected variable
    of the environment) is there without error and convertible, and the
    [modules] section interpolates. *)
Definition loads_cleanly (w : world) : bool :=
  match read_config w with
  | Ok _ =>
      forallb (fun f => text_ok (config_text w f)) field_names &&
      forallb (fun f => text_ok (Ok <$> env_value w f)) field_names &&
      modules_ok w
  | Raise _ => false
  end.

(** The attributes [self'] that [load_all] leaves, from the attributes
    [self] it started with. *)
Definition merge_outcome (w : world) (self self' : gmap string pyval) : Prop :=
  (forall f, f ∈ field_names ->
     f ∉ ["pod_manager_url"; "module_config"; "modules_to_remote"] ->
     decided (merged_text w f) (self !! f) (self' !! f)) /\
  (forall u, environ w !! "POD_MANAGER_URL" = Some u ->
     self' !! "pod_manager_url" = Some (PStr u)) /\
  (environ w !! "POD_MANAGER_URL" = None ->
     decided (merged_text w "pod_manager_url")
             (self !! "pod_manager_url") (self' !! "pod_manager_url")) /\
  (forall r, modules_dict w = Some r ->
     exists d, r = Ok d /\ self' !! "module_config" = Some d) /\
  (modules_dict w = None ->
     decided (merged_text w "module_config")
             (self !! "module_config") (self' !! "module_config")) /\
  self' !! "modules_to_remote" = self' !! "module_config".

(** What of the configuration file the module can see: whether it parses,
    and then its [settings], [modules] and [DEFAULT] sections. *)
Definition config_view (w : world)
  : result (option section * option section * option section) :=
  config_parser ← read_config w;
  Ok (config_parser !! "settings", config_parser !! "modules",
      config_parser !! "DEFAULT").

(** The world after [os.environ[name] = v]. *)
Definition set_env (w : world) (name v : string) : world :=
  World (home_dir w) (config_file w) (config_error w) (<[name := v]> (environ w)).

(** The same home directory and configuration file under another
    environment. *)
Definition with_environ (w : world) (env : gmap string string) : world :=
  World (home_dir w) (config_file w) (config_error w) env.

(** The variables of the environment that [load_all] reads for a field:
    the two prefixed names of the field, and POD_MANAGER_URL for
    [pod_manager_url]; [modules_to_remote] is overwritten by
    [module_config] and follows its variables. *)
Definition variables_of (f : string) : list string :=
  if String.eqb f "modules_to_remote" then
    [ "JACLANG_MODULE_CONFIG"; "JAC_MODULE_CONFIG" ]
  else if String.eqb f "pod_manager_url" then
    [ "JACLANG_" ++ upper f; "JAC_" ++ upper f; "POD_MANAGER_URL" ]
  else [ "JACLANG_" ++ upper f; "JAC_" ++ upper f ].

(** ** Sample worlds *)

(** A string of [n] times the character [c]. *)
Fixpoint repeated (n : nat) (c : ascii) : string :=
  match n with
  | O => EmptyString
  | S n => String c (repeated n c)
  end.

(** One digit more than [int] converts. *)
Definition nines : string := repeated 4301 "9".

(** No configuration file and an empty environment. *)
Definition bare_world : world := World "/home/jac" None None ∅.

(** A configuration file and an environment that both speak about
    [max_line_length], and a pod manager URL given three times. *)
Definition busy_world : world :=
  World "/home/jac"
    (Some {[ "settings" := [ ("max_line_length", "100"); ("pass_timer", "yes");
                              ("pod_manager_url", "http://file") ] ]})
    None
    (list_to_map
       [ ("JAC_MAX_LINE_LENGTH", "120"); ("JACLANG_MAX_LINE_LENGTH", "79");
         ("JAC_LSP_DEBUG", "1"); ("JACLANG_POD_MANAGER_URL", "http://prefixed");
         ("POD_MANAGER_URL", "http://pods"); ("PATH", "/usr/bin") ]).

(** The same as [busy_world] for the settings, with another search path,
    one more variable and a section the module never reads. *)
Definition busy_world' : world :=
  World "/home/jac"
    (Some (list_to_map
       [ ("settings", [ ("max_line_length", "100"); ("pass_timer", "yes");
                        ("pod_manager_url", "http://file") ]);
         ("editor", [ ("theme", "dark") ]) ]))
    None
    (list_to_map
       [ ("JAC_MAX_LINE_LENGTH", "120"); ("JACLANG_MAX_LINE_LENGTH", "79");
         ("JAC_LSP_DEBUG", "1"); ("JACLANG_POD_MANAGER_URL", "http://prefixed");
         ("POD_MANAGER_URL", "http://pods"); ("PATH", "/bin"); ("LANG", "C") ]).

(** An environment that sets one field. *)
Definition wide_world : world :=
  World "/home/jac" None None {[ "JAC_MAX_LINE_LENGTH" := "100" ]}.

(** A configuration file that sets the same field. *)
Definition filed_world : world :=
  World "/home/jac" (Some {[ "settings" := [ ("max_line_length", "100") ] ]}) None ∅.

(** A configuration file that sets the field in its [DEFAULT] section
    only, next to an empty [settings] section. *)
Definition default_world : world :=
  World "/home/jac"
    (Some (list_to_map
       [ ("DEFAULT", [ ("max_line_length", "100") ]); ("settings", []) ]))
    None ∅.

(** A [modules] section in the file, and the environment naming both
    module fields. *)
Definition modules_world : world :=
  World "/home/jac"
    (Some (list_to_map
       [ ("settings", []); ("modules", [ ("numpy", "local") ]) ]))
    None
    (list_to_map
       [ ("JACLANG_MODULE_CONFIG", "from_env");
         ("JACLANG_MODULES_TO_REMOTE", "from_env") ]).

(** A [modules] section next to a [DEFAULT] section, with a reference from
    the one to the other. *)
Definition shared_world : world :=
  World "/home/jac"
    (Some (list_to_map
       [ ("DEFAULT", [ ("registry", "local") ]);
         ("settings", []);
         ("modules", [ ("numpy", "%(registry)s/numpy") ]) ]))
    None ∅.

(** A file whose [max_line_length] is a superscript two, and an
    environment that overrides the field. *)
Definition broken_world : world :=
  World "/home/jac"
    (Some {[ "settings" := [ ("max_line_length", String (ascii_of_N 178) "") ] ]})
    None
    {[ "JAC_MAX_LINE_LENGTH" := "100" ]}.

(** A file whose [pod_manager_url] holds a lone percent sign. *)
Definition percent_world : world :=
  World "/home/jac"
    (Some {[ "settings" := [ ("pod_manager_url", "http://pods/100%") ] ]})
    None ∅.

(** A file without a section header before its first option. *)
Definition garbled_world : world :=
  World "/home/jac" (Some ∅) (Some (ConfigParserError "MissingSectionHeaderError")) ∅.

End Settings.

Import Transport.

(* ===================================================================== *)
(** * The server side, modelled from the specification *)
(* ===================================================================== *)

Module Binder.

(** Modelled from the spec: the upload value [UploadFile] of the server
    module, which is missing.  It has the attributes [filename], [content]
    (raw bytes), [content_type] and [size] (byte length). *)
Record UploadFile : Type := {
  filename : string;
  content : list Byte.byte;
  content_type : string;
  size : Z
}.

(** Modelled from the spec: [UploadFile.from_bytes], missing with the
    server module; the size is the byte length of the data. *)
Definition from_bytes (filename : string) (data : list Byte.byte)
    (content_type : string) : UploadFile :=
  {| filename := filename; content := data; content_type := content_type;
     size := Z.of_nat (length data) |}.

(** Modelled from the spec: a bound parameter of the walker input, a
    JSON-like value or an uploaded file. *)
Inductive value : Type :=
| Plain (v : pyval)
| Upload (f : UploadFile).

(** Modelled from the spec: the errors of the taxonomy that reach the
    envelope (binding, ability and authentication errors). *)
Inductive error : Type :=
| UnknownWalker (walker : string)
| MissingRequiredField (field : string)
| TypeMismatch (field : string)
| MalformedMultipart
| AbilityError (msg : string)
| Unauthenticated.

(** Modelled from the spec: conversion to a declared scalar type, which the
    specification names (TypeMismatch) and does not define.  [of_json]
    converts a JSON value, [of_text] a text form field; [None] means not
    convertible. *)
Class ScalarCodec (scalar : Type) : Type := {
  of_json : scalar -> pyval -> option pyval;
  of_text : scalar -> string -> option pyval
}.

(** Modelled from the spec: the semantic type of a declared parameter,
    scalar, text or file. *)
Inductive sem_type (scalar : Type) : Type :=
| Scalar (ty : scalar)
| Text
| File.
Arguments Scalar {scalar} ty.
Arguments Text {scalar}.
Arguments File {scalar}.

(** Modelled from the spec: a declared parameter of a walker schema, with
    its name, semantic type, optional default, and whether it is
    mandatory. *)
Record param (scalar : Type) : Type := Param {
  p_name : string;
  p_type : sem_type scalar;
  p_default : option value;
  p_mandatory : bool
}.
Arguments Param {scalar}.
Arguments p_name {scalar}.
Arguments p_type {scalar}.
Arguments p_default {scalar}.
Arguments p_mandatory {scalar}.

(** Modelled from the spec: a request body after parsing, a JSON object or
    the parts of a multipart form. *)
Inductive body : Type :=
| JsonBody (obj : gmap string pyval)
| MultipartBody (parts : list part).

(** Modelled from the spec: the form part whose field name matches a file
    parameter, the first file part of that name in the body. *)
Fixpoint file_part (name : string) (parts : list part)
  : option (string * string * list Byte.byte) :=
  match parts with
  | [] => None
  | FilePart n fn ct c :: rest =>
      if String.eqb n name then Some (fn, ct, c) else file_part name rest
  | TextPart _ _ :: rest => file_part name rest
  end.

(** Modelled from the spec: the text form field matching a parameter, the
    first text field of that name in the body. *)
Fixpoint text_part (name : string) (parts : list part) : option string :=
  match parts with
  | [] => None
  | TextPart n v :: rest =>
      if String.eqb n name then Some v else text_part name rest
  | FilePart _ _ _ _ :: rest => text_part name rest
  end.

(** Modelled from the spec: the parameter is file-valued. *)
Definition is_file {scalar} (p : param scalar) : bool :=
  match p_type p with File => true | _ => false end.

(** Modelled from the spec: the binder's per-walker fact "has at least one
    file parameter". *)
Definition has_file_param {scalar} (schema : list (param scalar)) : bool :=
  existsb is_file schema.

Section Binding.

Context {scalar : Type} `{!ScalarCodec scalar}.

(** Modelled from the spec: a value that is present and not convertible is
    a TypeMismatch. *)
Definition converted (field : string) (o : option pyval) : res error value :=
  match o with
  | Some v => Ok (Plain v)
  | None => Raise (TypeMismatch field)
  end.

(** Modelled from the spec: what a body offers for a parameter (binding
    rules of the Request Binder).  A JSON body offers the like-named
    top-level key to a scalar or text parameter; a multipart body offers
    the file part of that field name to a file parameter and the text field
    of that name to any other parameter. *)
Definition offered (p : param scalar) (b : body) : option (res error value) :=
  match b, p_type p with
  | JsonBody obj, Scalar ty =>
      (fun j => converted (p_name p) (of_json ty j)) <$> obj !! p_name p
  | JsonBody obj, Text =>
      (fun j => converted (p_name p)
                  (match j with PStr s => Some (PStr s) | _ => None end))
        <$> obj !! p_name p
  | JsonBody _, File => None
  | MultipartBody parts, File =>
      (fun f => Ok (Upload (from_bytes f.1.1 f.2 f.1.2))) <$> file_part (p_name p) parts
  | MultipartBody parts, Text =>
      (fun t => Ok (Plain (PStr t))) <$> text_part (p_name p) parts
  | MultipartBody parts, Scalar ty =>
      (fun t => converted (p_name p) (of_text ty t)) <$> text_part (p_name p) parts
  end.

(** Modelled from the spec: binding of one declared parameter; a missing
    parameter takes its default, or fails with MissingRequiredField when it
    has none and is mandatory, or stays unbound. *)
Definition bind_param (p : param scalar) (b : body) : res error (option value) :=
  match offered p b with
  | Some r => Some <$> r
  | None =>
      match p_default p with
      | Some d => Ok (Some d)
      | None =>
          if p_mandatory p then Raise (MissingRequiredField (p_name p))
          else Ok None
      end
  end.

(** Modelled from the spec: the Request Binder; the walker input is built
    parameter by parameter, and the first error stops the binding. *)
Definition bind_request (schema : list (param scalar)) (b : body)
  : res error (gmap string value) :=
  for_each (fun p inputs =>
      v ← bind_param p b;
      Ok (match v with
          | Some v => <[p_name p := v]> inputs
          | None => inputs
          end)) schema ∅.

(** The field names of the file parts, and of the text fields, in order. *)
Fixpoint file_names (parts : list part) : list string :=
  match parts with
  | [] => []
  | FilePart n _ _ _ :: rest => n :: file_names rest
  | TextPart _ _ :: rest => file_names rest
  end.

Fixpoint text_names (parts : list part) : list string :=
  match parts with
  | [] => []
  | TextPart n _ :: rest => n :: text_names rest
  | FilePart _ _ _ _ :: rest => text_names rest
  end.

End Binding.

(** Modelled from the spec: a walker type as the binder and the scheduler
    see it; [w_run] stands for the scheduler running the walker's abilities
    on the caller's root over a store, giving the report list and the store
    after the commit, or an error after which nothing is committed. *)
Record walker (scalar store : Type) : Type := Walker {
  w_params : list (param scalar);
  w_run : store -> gmap string value -> res error (list pyval * store)
}.
Arguments Walker {scalar store}.
Arguments w_params {scalar store}.
Arguments w_run {scalar store}.

(** ** The transport envelope *)

(** Modelled from the spec: the success envelope, [ok=true] and the report
    list under [data]. *)
Definition success_envelope (reports : list pyval) : pyval :=
  PDict (list_to_map
    [ ("ok", PBool true);
      ("data", PDict {[ "reports" := PList reports ]});
      ("error", PNone) ]).

(** Modelled from the spec: an optional key of the error object. *)
Definition optional (k : string) (o : option pyval) (d : gmap string pyval)
  : gmap string pyval :=
  match o with
  | Some v => <[k := v]> d
  | None => d
  end.

(** Modelled from the spec: the failure envelope, [ok=false], [data=null]
    and an error object with [message] and the optional [code] and
    [details]. *)
Definition failure_fields (message : string) (code details : option pyval)
  : gmap string pyval :=
  list_to_map
    [ ("ok", PBool false);
      ("data", PNone);
      ("error", PDict (optional "details" details
                         (optional "code" code {[ "message" := PStr message ]}))) ].

(** Modelled from the spec: the failure envelope as a JSON object. *)
Definition failure_envelope (message : string) (code details : option pyval)
  : pyval :=
  PDict (failure_fields message code details).

(** Modelled from the spec: what makes an object a failure envelope with a
    given message, code and details, whatever else it carries. *)
Definition failure_shape (env : gmap string pyval) (message : string)
    (code details : option pyval) : Prop :=
  env !! "ok" = Some (PBool false) /\
  env !! "data" = Some PNone /\
  exists e : gmap string pyval,
    env !! "error" = Some (PDict e) /\
    e !! "message" = Some (PStr message) /\
    e !! "code" = code /\
    e !! "details" = details.

(** Modelled from the spec: the machine-readable tag of an error, the
    name it has in the taxonomy. *)
Definition error_code (e : error) : string :=
  match e with
  | UnknownWalker _ => "UnknownWalker"
  | MissingRequiredField _ => "MissingRequiredField"
  | TypeMismatch _ => "TypeMismatch"
  | MalformedMultipart => "MalformedMultipart"
  | AbilityError _ => "AbilityError"
  | Unauthenticated => "Unauthenticated"
  end.

(** Modelled from the spec: the human-readable message of an error; the
    wording is not fixed by the specification. *)
Definition error_message (e : error) : string :=
  match e with
  | UnknownWalker w => "unknown walker: " ++ w
  | MissingRequiredField f => "missing required field: " ++ f
  | TypeMismatch f => "type mismatch: " ++ f
  | MalformedMultipart => "malformed multipart body"
  | AbilityError msg => msg
  | Unauthenticated => "unauthenticated"
  end.

Section Server.

Context {scalar : Type} `{!ScalarCodec scalar} {store : Type}.

(** Modelled from the spec: [POST /walker/{WalkerName}]; binder errors
    short-circuit before the walker runs, and a failed request leaves the
    store as it was. *)
Definition post_walker (registry : gmap string (walker scalar store))
    (st : store) (name : string) (b : body) : pyval * store :=
  let outcome :=
    wk ← from_option Ok (Raise (UnknownWalker name)) (registry !! name);
    inputs ← bind_request (w_params wk) b;
    w_run wk st inputs in
  match outcome with
  | Ok (reports, st') => (success_envelope reports, st')
  | Raise e =>
      (failure_envelope (error_message e) (Some (PStr (error_code e))) None, st)
  end.

(** ** The API description *)

(** Modelled from the spec: the media types under [requestBody.content];
    JSON for every walker, multipart/form-data when the walker has a file
    parameter. *)
Definition media_types (wk : walker scalar store) : gmap string pyval :=
  let json : gmap string pyval := {[ "application/json" := PDict ∅ ]} in
  if has_file_param (w_params wk)
  then <["multipart/form-data" := PDict ∅]> json
  else json.

(** Modelled from the spec: the [post] operation of a walker endpoint with
    its [requestBody.content]. *)
Definition operation (wk : walker scalar store) : pyval :=
  PDict {[ "post" :=
    PDict {[ "requestBody" := PDict {[ "content" := PDict (media_types wk) ]} ]} ]}.

(** Modelled from the spec: the path of [POST /walker/{WalkerName}]. *)
Definition walker_path (name : string) : string := "/walker/" ++ name.

(** Modelled from the spec: the document served at [GET /openapi.json],
    one path per walker type. *)
Definition openapi (registry : gmap string (walker scalar store)) : pyval :=
  PDict {[ "paths" := PDict (kmap walker_path (operation <$> registry)) ]}.

End Server.

(** ** The walkers of the upload fixture *)

Section Fixture.

Context {scalar : Type} {store : Type}.

(** Modelled from the spec: what the fixture walkers report of a file, the
    two fields every upload test reads. *)
Definition file_report (f : UploadFile) : list (string * pyval) :=
  [ ("filename", PStr (filename f)); ("size", PInt (size f)) ].

(** Modelled from the spec: the fixture walker UploadDocument
    (file_upload_api.jac is missing): a file and a description that
    defaults to the empty string; its report holds the fields the upload
    tests read. *)
Definition UploadDocument : walker scalar store :=
  Walker
    [ Param "file" File None true;
      Param "description" Text (Some (Plain (PStr ""))) false ]
    (fun st inputs =>
       match inputs !! "file", inputs !! "description" with
       | Some (Upload f), Some (Plain d) =>
           Ok ([ PDict (list_to_map
                   (file_report f ++
                    [ ("content_type", PStr (content_type f));
                      ("description", d) ])) ], st)
       | _, _ => Raise (AbilityError "UploadDocument")
       end).

(** Modelled from the spec: the fixture walker UploadMultipleFiles, two
    files and a label. *)
Definition UploadMultipleFiles : walker scalar store :=
  Walker
    [ Param "file1" File None true;
      Param "file2" File None true;
      Param "label" Text (Some (Plain (PStr ""))) false ]
    (fun st inputs =>
       match inputs !! "file1", inputs !! "file2", inputs !! "label" with
       | Some (Upload f1), Some (Upload f2), Some (Plain l) =>
           Ok ([ PDict (list_to_map
                   [ ("file1", PDict (list_to_map (file_report f1)));
                     ("file2", PDict (list_to_map (file_report f2)));
                     ("label", l) ]) ], st)
       | _, _, _ => Raise (AbilityError "UploadMultipleFiles")
       end).

(** Modelled from the spec: the fixture walker SimpleGreet, which has no
    file parameter and greets by name. *)
Definition SimpleGreet : walker scalar store :=
  Walker
    [ Param "name" Text None true ]
    (fun st inputs =>
       match inputs !! "name" with
       | Some (Plain (PStr name)) =>
           Ok ([ PDict {[ "message" := PStr ("Hello, " ++ name ++ "!") ]} ], st)
       | _ => Raise (AbilityError "SimpleGreet")
       end).

(** Modelled from the spec: the walker types of the fixture program
    file_upload_api.jac, by the names of their endpoints. *)
Definition file_upload_api : gmap string (walker scalar store) :=
  list_to_map
    [ ("UploadDocument", UploadDocument);
      ("UploadMultipleFiles", UploadMultipleFiles);
      ("SimpleGreet", SimpleGreet) ].

End Fixture.

(** ** The requests of the upload tests *)

(** [test_multiple_file_upload], for any two contents and any label. *)
Definition multiple_upload (c1 c2 : list Byte.byte) (label : string) : body :=
  MultipartBody (request_multipart
    [ ("file1", ("first.txt", c1, "text/plain"));
      ("file2", ("second.txt", c2, "text/plain")) ]
    [ ("label", label) ]).

(** [test_single_file_upload] and its variants: one file and a
    description. *)
Definition single_upload (fn : string) (c : list Byte.byte) (ct : string)
    (description : string) : body :=
  MultipartBody (request_multipart [ ("file", (fn, c, ct)) ]
                                   [ ("description", description) ]).

(** [test_file_upload_with_default_description]: the file alone. *)
Definition bare_upload (fn : string) (c : list Byte.byte) (ct : string) : body :=
  MultipartBody (request_multipart [ ("file", (fn, c, ct)) ] []).





(** ** A sample codec *)

(** One scalar type, the integers: a JSON integer is taken as it is, a
    text field has to be a run of decimal digits. *)
Inductive sample_scalar : Type := SInt.

#[export] Instance sample_codec : ScalarCodec sample_scalar := {
  of_json := fun _ j => match j with PInt n => Some (PInt n) | _ => None end;
  of_text := fun _ t =>
    if Settings.isdigit t && Settings.all_chars Settings.is_decimal t
    then Some (PInt (Settings.digits_value 0 t)) else None
}.



End Binder.

Import Binder.

(* ===================================================================== *)
(** * Loops and binds *)
(* ===================================================================== *)

Module PyFacts.

Lemma for_each_ext {E A S : Type} (f g : A -> S -> res E S) (l : list A) (s : S) :
  (forall x s, x ∈ l -> f x s = g x s) ->
  for_each f l s = for_each g l s.
Proof.
  revert s. induction l as [|x l IH]; intros s Hfg; [done|].
  cbn [for_each]. rewrite (Hfg x s) by set_solver.
  destruct (g x s) as [s'|e]; [|done]. cbn.
  apply IH. intros y t Hy. apply Hfg. set_solver.
Qed.

(** Case analysis on a member of an explicit list, each case by [tac]. *)
Ltac each_member H tac :=
  repeat (apply elem_of_cons in H as [->|H]; [tac|]);
  by apply elem_of_nil in H.

(** A decidable proposition, by computation. *)
Ltac by_decision := apply (bool_decide_unpack _); vm_compute; exact I.

(** A decidable property of every member of an explicit list. *)
Ltac members_by_decision :=
  hnf; apply (proj1 (Forall_forall _ _)); by_decision.

End PyFacts.

Import PyFacts.

(* ===================================================================== *)
(** * Properties of the envelope reader *)
(* ===================================================================== *)

Module TransportFacts.

Lemma contains_Some (d : gmap string pyval) (k : string) (v : pyval) :
  d !! k = Some v -> contains d k = true.
Proof. intros H. unfold contains. apply bool_decide_eq_true. eauto. Qed.

Lemma contains_None (d : gmap string pyval) (k : string) :
  d !! k = None -> contains d k = false.
Proof.
  intros H. unfold contains. apply bool_decide_eq_false.
  rewrite H. intros [v Hv]. discriminate.
Qed.

Lemma get_Some (d : gmap string pyval) (k : string) (v : pyval) :
  d !! k = Some v -> get d k = v.
Proof. intros H. unfold get. by rewrite H. Qed.

Lemma getitem_Some (d : gmap string pyval) (k : string) (v : pyval) :
  d !! k = Some v -> getitem d k = Ok v.
Proof. intros H. unfold getitem. by rewrite H. Qed.

(** A dict with a key is truthy. *)
Lemma truthy_nonempty (d : gmap string pyval) (k : string) (v : pyval) :
  d !! k = Some v -> truthy (PDict d) = true.
Proof.
  intros H. simpl. apply negb_true_iff, bool_decide_eq_false.
  intros ->. by rewrite lookup_empty in H.
Qed.

(** What the error branch builds from an error object. *)
Lemma error_result_fields (e : gmap string pyval) :
  exists r : gmap string pyval,
    error_result e = Ok (PDict r) /\
    r !! "error" = Some (get_or e "message" (PStr "Unknown error")) /\
    r !! "error_code" = e !! "code" /\
    r !! "error_details" = e !! "details" /\
    forall k, is_Some (r !! k) -> k ∈ ["error"; "error_code"; "error_details"].
Proof.
  unfold error_result.
  destruct (e !! "code") as [c|] eqn:Hc; destruct (e !! "details") as [d|] eqn:Hd;
    rewrite ?(contains_Some _ _ _ Hc), ?(contains_None _ _ Hc),
            ?(contains_Some _ _ _ Hd), ?(contains_None _ _ Hd),
            ?(getitem_Some _ _ _ Hc), ?(getitem_Some _ _ _ Hd);
    simpl; eexists; (split; [reflexivity|]);
    (split; [by simplify_map_eq|]); (split; [by simplify_map_eq|]);
    (split; [by simplify_map_eq|]);
    intros k [v Hv];
    repeat (apply lookup_insert_Some in Hv as [[<- _]|[_ Hv]]; [set_solver|]);
    try (apply lookup_singleton_Some in Hv as [<- _]; set_solver).
Qed.

(** The reader on an object whose [ok] is false and whose [error] is a
    non-empty object, whatever [data] is. *)
Lemma extract_failure (env e : gmap string pyval) (m data : pyval) :
  env !! "ok" = Some (PBool false) ->
  env !! "data" = Some data ->
  env !! "error" = Some (PDict e) ->
  e !! "message" = Some m ->
  _extract_transport_response_data (PDict env) = error_result e.
Proof.
  intros Hok Hdata Herr Hm. unfold _extract_transport_response_data.
  rewrite (contains_Some _ _ _ Hok), (contains_Some _ _ _ Hdata).
  rewrite (get_Some _ _ _ Hok), (get_Some _ _ _ Herr), (getitem_Some _ _ _ Herr).
  simpl truthy at 1. cbn [andb negb].
  by rewrite (truthy_nonempty _ _ _ Hm).
Qed.

(** The failure envelope the server builds has the failure shape. *)
Lemma failure_envelope_shape (message : string) (code details : option pyval) :
  failure_shape (failure_fields message code details) message code details.
Proof.
  unfold failure_shape, failure_fields. repeat split; try done.
  eexists. split; [done|].
  destruct code, details; by simplify_map_eq.
Qed.

(** The reader unwraps a pair whose second element is an object. *)
Lemma extract_pair (status : pyval) (body : gmap string pyval) :
  _extract_transport_response_data (PList [status; PDict body]) =
  _extract_transport_response_data (PDict body).
Proof. reflexivity. Qed.

(** C1. The pair form [[status, object]] is read exactly like the bare
    object: for every status value and every response object, extracting
    the envelope from the pair gives the same outcome as extracting it
    from the object. *)
Theorem pair_form_reads_as_bare (status : pyval) (body : gmap string pyval) :
  _extract_transport_response_data (PList [status; PDict body]) =
  _extract_transport_response_data (PDict body).
Proof. apply extract_pair. Qed.

(** C6. A failure envelope has [ok=false], [data=null] and an error object
    with a message, an optional code and optional details; reading it, in
    the bare or in the pair form, gives an object with exactly the message
    (under [error]), the code (under [error_code], when present) and the
    details (under [error_details], when present), and nothing else; the
    outcome is the same whatever [data] holds. *)
Theorem failure_envelope_recovered (env : gmap string pyval) (message : string)
    (code details : option pyval) (status : pyval) :
  failure_shape env message code details ->
  exists r : gmap string pyval,
    _extract_transport_response_data (PDict env) = Ok (PDict r) /\
    _extract_transport_response_data (PList [status; PDict env]) = Ok (PDict r) /\
    r !! "error" = Some (PStr message) /\
    r !! "error_code" = code /\
    r !! "error_details" = details /\
    (forall k, is_Some (r !! k) -> k ∈ ["error"; "error_code"; "error_details"]) /\
    (forall data,
       _extract_transport_response_data (PDict (<["data" := data]> env)) = Ok (PDict r)).
Proof.
  intros (Hok & Hdata & e & Herr & Hm & Hc & Hd).
  destruct (error_result_fields e) as (r & Hr & Hre & Hrc & Hrd & Hdom).
  exists r.
  rewrite extract_pair.
  rewrite (extract_failure env e _ _ Hok Hdata Herr Hm).
  repeat split; try done.
  - rewrite Hre. unfold get_or. by rewrite Hm.
  - congruence.
  - congruence.
  - intros data.
    rewrite (extract_failure (<["data" := data]> env) e (PStr message) data);
      [done | by simplify_map_eq ..].
Qed.

Lemma failure_envelope_recovered_witness :
  failure_shape (failure_fields "store conflict" (Some (PStr "VersionConflict")) None)
                "store conflict" (Some (PStr "VersionConflict")) None /\
  exists r : gmap string pyval,
    _extract_transport_response_data
      (failure_envelope "store conflict" (Some (PStr "VersionConflict")) None)
      = Ok (PDict r) /\
    _extract_transport_response_data
      (PList [PInt 409;
              failure_envelope "store conflict" (Some (PStr "VersionConflict")) None])
      = Ok (PDict r) /\
    r !! "error" = Some (PStr "store conflict") /\
    r !! "error_code" = Some (PStr "VersionConflict") /\
    r !! "error_details" = None /\
    (forall k, is_Some (r !! k) -> k ∈ ["error"; "error_code"; "error_details"]) /\
    (forall data,
       _extract_transport_response_data
         (PDict (<["data" := data]>
            (failure_fields "store conflict" (Some (PStr "VersionConflict")) None)))
       = Ok (PDict r)).
Proof.
  assert (H : failure_shape
                (failure_fields "store conflict" (Some (PStr "VersionConflict")) None)
                "store conflict" (Some (PStr "VersionConflict")) None).
  { split; [reflexivity|]. split; [reflexivity|].
    eexists. split; [reflexivity|]. split; [reflexivity|].
    split; reflexivity. }
  split; [exact H|].
  exact (failure_envelope_recovered _ _ _ _ (PInt 409) H).
Defined.

(** An [error] that is a string has no [get]: the reader raises. *)
Example extract_string_error :
  _extract_transport_response_data
    (PDict (list_to_map [ ("ok", PBool false); ("data", PNone);
                          ("error", PStr "boom") ]))
  = Raise (AttributeError "get").
Proof. vm_compute. reflexivity. Qed.

(** An object without [data] is no envelope and is handed back. *)
Example extract_plain_object :
  _extract_transport_response_data (PDict {[ "ok" := PBool true ]})
  = Ok (PDict {[ "ok" := PBool true ]}).
Proof. vm_compute. reflexivity. Qed.

(** The reader on a success envelope: the [data] object with its reports. *)
Lemma extract_success (reports : list pyval) :
  _extract_transport_response_data (success_envelope reports) =
  Ok (PDict {[ "reports" := PList reports ]}).
Proof. reflexivity. Qed.

End TransportFacts.

(* ===================================================================== *)
(** * Properties of the settings module *)
(* ===================================================================== *)

Module SettingsFacts.

Import Settings.

(** ** Conversion *)

Lemma len_cons (c : ascii) (s : string) : len (String c s) = N.succ (len s).
Proof. unfold len. cbn [String.length]. apply Nat2N.inj_succ. Qed.

(** A run of decimal digits is counted to its end. *)
Lemma leading_digits_all (s : string) :
  all_chars is_decimal s = true -> leading_digits s = len s.
Proof.
  induction s as [|c s IH]; [done|]. cbn [all_chars leading_digits].
  intros [Hc Hs]%andb_true_iff. by rewrite Hc, len_cons, IH.
Qed.

(** The three outcomes of [int]. *)
Lemma int_cases (s : string) :
  ((max_str_digits < leading_digits s)%N /\
   int s = Raise (exceeds_limit (leading_digits s))) \/
  ((leading_digits s <= max_str_digits)%N /\ s <> "" /\
   all_chars is_decimal s = true /\ int s = Ok (digits_value 0 s)) \/
  ((leading_digits s <= max_str_digits)%N /\
   (s = "" \/ all_chars is_decimal s = false) /\
   int s = Raise (invalid_literal s)).
Proof.
  unfold int. destruct (N.ltb_spec max_str_digits (leading_digits s)) as [Hlt|Hle].
  - by left.
  - right. destruct s as [|c s].
    + right. split; [done|]. split; [by left|done].
    + destruct (all_chars is_decimal (String c s)) eqn:Hall.
      * left. done.
      * right. split; [done|]. split; [by right|done].
Qed.

(** The five outcomes of [convert_type], by the tests it makes. *)
Lemma convert_type_cases (value : string) :
  (isdigit value = true /\ (max_str_digits < leading_digits value)%N /\
   convert_type value = Raise (exceeds_limit (leading_digits value))) \/
  (isdigit value = true /\ (leading_digits value <= max_str_digits)%N /\
   all_chars is_decimal value = true /\
   convert_type value = Ok (PInt (digits_value 0 value))) \/
  (isdigit value = true /\ (leading_digits value <= max_str_digits)%N /\
   all_chars is_decimal value = false /\
   convert_type value = Raise (invalid_literal value)) \/
  (isdigit value = false /\
   lower value ∈ ["true"; "false"; "t"; "f"; "yes"; "no"; "y"; "n"; "1"; "0"] /\
   convert_type value = Ok (PBool (str_to_bool value))) \/
  (isdigit value = false /\
   (lower value ∉ ["true"; "false"; "t"; "f"; "yes"; "no"; "y"; "n"; "1"; "0"]) /\
   convert_type value = Ok (PStr value)).
Proof.
  unfold convert_type.
  destruct (isdigit value) eqn:Hd.
  - destruct (int_cases value) as [(Hlt & ->)|[(Hle & _ & Hall & ->)|(Hle & Hbad & ->)]].
    + by left.
    + right. left. done.
    + right. right. left. destruct Hbad as [->|Hall]; [discriminate Hd|done].
  - right. right. right. case_bool_decide; [left|right]; done.
Qed.

(** [convertible] tells when [convert_type] returns. *)
Lemma convertible_spec (raw : string) :
  convertible raw = match convert_type raw with Ok _ => true | Raise _ => false end.
Proof.
  unfold convertible.
  destruct (convert_type_cases raw)
    as [(Hd & Hlt & ->)|[(Hd & Hle & Hall & ->)|[(Hd & Hle & Hall & ->)|
       [(Hd & _ & ->)|(Hd & _ & ->)]]]]; rewrite Hd; cbn [negb orb]; try done.
  - destruct (all_chars is_decimal raw) eqn:Hall; [|done]. cbn [andb].
    rewrite (leading_digits_all raw Hall) in Hlt.
    apply N.leb_gt. exact Hlt.
  - rewrite Hall. cbn [andb]. rewrite (leading_digits_all raw Hall) in Hle.
    by apply N.leb_le.
  - by rewrite Hall.
Qed.

Lemma convert_type_convertible (raw : string) :
  convertible raw = true <-> exists v, convert_type raw = Ok v.
Proof.
  rewrite convertible_spec. destruct (convert_type raw) as [v|e].
  - split; [by eexists|done].
  - split; [done|by intros [v ?]].
Qed.

Lemma is_decimal_isdigit (c : ascii) : is_decimal c = true -> char_isdigit c = true.
Proof. unfold char_isdigit. by intros ->. Qed.

Lemma all_decimal_isdigit (s : string) :
  s <> "" -> all_chars is_decimal s = true -> isdigit s = true.
Proof.
  intros Hne Hall. destruct s as [|c s]; [done|]. unfold isdigit.
  revert Hall. generalize (String c s). clear. intros s.
  induction s as [|c s IH]; [done|]. cbn.
  intros [Hc Hs]%andb_true_iff. by rewrite (is_decimal_isdigit _ Hc), IH.
Qed.

(** A decimal digit is one of the ten characters, with its value. *)
Lemma is_decimal_cases (c : ascii) :
  is_decimal c = true ->
  (c = "0" \/ c = "1" \/ c = "2" \/ c = "3" \/ c = "4" \/
   c = "5" \/ c = "6" \/ c = "7" \/ c = "8" \/ c = "9")%char.
Proof.
  destruct c as [[|] [|] [|] [|] [|] [|] [|] [|]]; vm_compute; intros H;
    try discriminate H; tauto.
Qed.

(** [digits_value] with a positive accumulator follows the accumulator of
    the Standard Library's reading of decimal numbers. *)
Lemma digits_value_acc (s : string) : forall (d : uint) (acc : positive),
  NilEmpty.uint_of_string s = Some d ->
  digits_value (Z.pos acc) s = Z.pos (Pos.of_uint_acc d acc).
Proof.
  induction s as [|c s IH]; intros d acc Hd.
  - injection Hd as <-. reflexivity.
  - cbn [NilEmpty.uint_of_string] in Hd.
    destruct (NilEmpty.uint_of_string s) as [d'|] eqn:Hs; [|done].
    apply uint_of_char_spec in Hd.
    cbn [digits_value].
    destruct Hd as [[-> ->]|[[-> ->]|[[-> ->]|[[-> ->]|[[-> ->]|
                   [[-> ->]|[[-> ->]|[[-> ->]|[[-> ->]|[-> ->]]]]]]]]]];
      cbn [Pos.of_uint_acc]; rewrite <- (IH _ _ eq_refl); f_equal;
      match goal with |- context [Z.of_N ?n] =>
        let k := eval vm_compute in (Z.of_N n) in change (Z.of_N n) with k
      end; lia.
Qed.

(** [digits_value] from zero is the number the Standard Library reads. *)
Lemma digits_value_of_uint (s : string) (d : uint) :
  NilEmpty.uint_of_string s = Some d ->
  digits_value 0 s = Z.of_uint d.
Proof.
  revert d. induction s as [|c s IH]; intros d Hd.
  - injection Hd as <-. reflexivity.
  - cbn [NilEmpty.uint_of_string] in Hd.
    destruct (NilEmpty.uint_of_string s) as [d'|] eqn:Hs; [|done].
    apply uint_of_char_spec in Hd.
    cbn [digits_value]. unfold Z.of_uint.
    destruct Hd as [[-> ->]|[[-> ->]|[[-> ->]|[[-> ->]|[[-> ->]|
                   [[-> ->]|[[-> ->]|[[-> ->]|[[-> ->]|[-> ->]]]]]]]]]];
      cbn [Pos.of_uint];
      match goal with |- context [Z.of_N (code ?c - 48)] =>
        let k := eval vm_compute in (Z.of_N (code c - 48)) in
        change (Z.of_N (code c - 48)) with k
      end; cbn [Z.mul Z.add];
      first [ by apply IH | by apply digits_value_acc ].
Qed.

(** A non-empty run of decimal digits is read by the Standard Library. *)
Lemma all_decimal_uint (s : string) :
  all_chars is_decimal s = true -> exists d, NilEmpty.uint_of_string s = Some d.
Proof.
  induction s as [|c s IH]; [by eexists|].
  cbn. intros [Hc Hs]%andb_true_iff. destruct (IH Hs) as [d ->].
  destruct (is_decimal_cases c Hc) as [->|[->|[->|[->|[->|[->|[->|[->|[->| ->]]]]]]]]];
    by eexists.
Qed.

(** [convert_type] on a non-empty run of decimal digits within the limit
    of [int]. *)
Lemma convert_type_digits (s : string) :
  s <> "" -> all_chars is_decimal s = true -> (len s <= max_str_digits)%N ->
  convert_type s = Ok (PInt (digits_value 0 s)).
Proof.
  intros Hne Hall Hlen.
  pose proof (all_decimal_isdigit s Hne Hall) as Hd.
  rewrite <- (leading_digits_all s Hall) in Hlen.
  destruct (convert_type_cases s)
    as [(_ & Hlt & _)|[(_ & _ & _ & H)|[(_ & _ & Hbad & _)|[(Hd' & _)|(Hd' & _)]]]];
    [lia|done|congruence|congruence|congruence].
Qed.

(** A string that passes [isdigit] is never converted to a boolean. *)
Lemma convert_type_isdigit (value : string) (b : bool) :
  isdigit value = true -> convert_type value <> Ok (PBool b).
Proof.
  intros Hd.
  destruct (convert_type_cases value)
    as [(_ & _ & ->)|[(_ & _ & _ & ->)|[(_ & _ & _ & ->)|[(Hd' & _)|(Hd' & _)]]]];
    congruence.
Qed.

(** A superscript two passes [isdigit] and is no decimal digit: the
    conversion raises, as [int] does. *)
Example superscript_digit_raises :
  isdigit (String (ascii_of_N 178) "") = true /\
  convert_type (String (ascii_of_N 178) "")
    = Raise (invalid_literal (String (ascii_of_N 178) "")) /\
  convertible (String (ascii_of_N 178) "") = false.
Proof. repeat split; vm_compute; reflexivity. Qed.

(** The words of [convert_type], in any case, and everything else. *)
Example convert_type_samples :
  convert_type "True" = Ok (PBool true) /\
  convert_type "no" = Ok (PBool false) /\
  convert_type "088" = Ok (PInt 88) /\
  convert_type "" = Ok (PStr "") /\
  convert_type "-1" = Ok (PStr "-1") /\
  convert_type "http://localhost:8080" = Ok (PStr "http://localhost:8080").
Proof. repeat split; vm_compute; reflexivity. Qed.

(** ** Interpolation on samples *)

(** A reference is replaced by the value of the option it names, from the
    section or from [DEFAULT], in any letter case; a doubled percent sign
    gives one; a lone percent sign, an unknown option and a reference to
    itself are errors. *)
Example interpolation_samples :
  let defaults := [ ("base", "B"); ("pc", "x%%y") ] in
  section_get "settings" [ ("k", "a%(BASE)sb") ] defaults "k" = Ok "aBb" /\
  section_get "settings" [ ("k", "%(pc)s") ] defaults "k" = Ok "x%y" /\
  section_get "settings" [ ("k", "100%%") ] defaults "k" = Ok "100%" /\
  section_get "settings" [ ("k", "100%") ] defaults "k"
    = Raise (InterpolationSyntaxError "k" "settings") /\
  section_get "settings" [ ("k", "%(base)") ] defaults "k"
    = Raise (InterpolationSyntaxError "k" "settings") /\
  section_get "settings" [ ("k", "%()s") ] defaults "k"
    = Raise (InterpolationSyntaxError "k" "settings") /\
  section_get "settings" [ ("k", "%(nope)s") ] defaults "k"
    = Raise (InterpolationMissingOptionError "k" "settings" "nope") /\
  section_get "settings" [ ("k", "%(k)s") ] defaults "k"
    = Raise (InterpolationDepthError "k" "settings") /\
  section_get "settings" [ ("k", "v") ] defaults "other" = Raise (KeyError "other") /\
  options [ ("k", "v"); ("base", "C") ] defaults = [ "k"; "base"; "pc" ] /\
  section_get "settings" [ ("k", "%(base)s") ; ("base", "C") ] defaults "k" = Ok "C".
Proof. repeat split; vm_compute; reflexivity. Qed.

(** ** The loops *)

Lemma settled_is_Some (found : option (result pyval)) (before after : option pyval) :
  settled found before after -> is_Some before -> is_Some after.
Proof. destruct found; cbn; [intros (v & _ & ->); eauto|by intros ->]. Qed.

(** Two steps in a row: the later value wins. *)
Lemma settled_then (first second : option (result pyval)) (a b c : option pyval) :
  settled first a b -> settled second b c ->
  settled (match second with Some r => Some r | None => first end) a c.
Proof. destruct second; cbn; [done|]. intros H ->. done. Qed.

(** The same value found twice settles an attribute once. *)
Lemma settled_fun (found : option (result pyval)) (a b c : option pyval) :
  settled found a b -> settled found a c -> c = b.
Proof.
  destruct found as [r|]; cbn; [|congruence].
  intros (v & Hv & ->) (v' & Hv' & ->). congruence.
Qed.

(** A loop that sets each key for which a value is found: when it
    returns, every attribute is settled by what was found for it if it is
    a key of the loop, and untouched otherwise. *)
Lemma for_each_set_settled (found : string -> option (result pyval))
    (keys : list string) :
  forall self self' : gmap string pyval,
  for_each (set_found found) keys self = Ok self' ->
  forall f, settled (if bool_decide (f ∈ keys) then found f else None)
                    (self !! f) (self' !! f).
Proof.
  induction keys as [|k keys IH]; intros self self' Hrun f.
  - injection Hrun as <-. by rewrite bool_decide_eq_false_2 by apply not_elem_of_nil.
  - cbn [for_each] in Hrun.
    destruct (set_found found k self) as [s1|] eqn:Hstep; [|done].
    cbn [mbind res_bind] in Hrun.
    assert (H1 : settled (if bool_decide (f = k) then found f else None)
                         (self !! f) (s1 !! f)).
    { unfold set_found in Hstep. case_bool_decide as Hf.
      - subst f. destruct (found k) as [[v|e]|]; [|done|].
        + injection Hstep as <-. exists v. by rewrite lookup_insert_eq.
        + by injection Hstep as <-.
      - cbn. destruct (found k) as [[v|e]|]; [|done|].
        + injection Hstep as <-. by rewrite lookup_insert_ne.
        + by injection Hstep as <-. }
    specialize (IH s1 self' Hrun f).
    destruct (bool_decide (f ∈ keys)) eqn:Hin.
    + apply bool_decide_eq_true_1 in Hin.
      rewrite bool_decide_eq_true_2 by (by right).
      destruct (found f) as [r|]; [done|].
      cbn in *. rewrite IH. by destruct (bool_decide (f = k)).
    + apply bool_decide_eq_false_1 in Hin. cbn in IH.
      case_bool_decide as Hf.
      * subst f. rewrite bool_decide_eq_true_2 by (by left).
        destruct (found k); cbn in *; [by rewrite IH|congruence].
      * rewrite bool_decide_eq_false_2.
        -- cbn in *. congruence.
        -- intros [?|?]%elem_of_cons; done.
Qed.

(** Such a loop returns exactly when nothing it finds is an error,
    whatever it starts from. *)
Lemma for_each_set_returns (found : string -> option (result pyval))
    (keys : list string) :
  forall self : gmap string pyval,
  (exists self', for_each (set_found found) keys self = Ok self') <->
  forallb (fun k => found_ok (found k)) keys = true.
Proof.
  induction keys as [|k keys IH]; intros self.
  - split; [done|by eexists].
  - cbn [for_each forallb].
    assert (Hstep : set_found found k self =
                    match found k with
                    | Some r => v ← r; Ok (<[k := v]> self)
                    | None => Ok self
                    end) by done.
    rewrite Hstep. clear Hstep.
    destruct (found k) as [[v|e]|]; cbn [mbind res_bind found_ok andb].
    + apply IH.
    + split; [by intros [? ?]|done].
    + apply IH.
Qed.

Lemma forallb_elem_of {A : Type} (p : A -> bool) (l : list A) :
  forallb p l = true <-> forall x, x ∈ l -> p x = true.
Proof.
  rewrite forallb_forall. split; intros H x Hx; apply H; by apply list_elem_of_In.
Qed.

Lemma forallb_same {A : Type} (p q : A -> bool) (l : list A) :
  (forall x, p x = q x) -> forallb p l = forallb q l.
Proof. intros H. induction l as [|x l IH]; [done|]. cbn. by rewrite H, IH. Qed.

Lemma text_ok_found (text : option (result string)) :
  text_ok text = found_ok (convert_text <$> text).
Proof.
  destruct text as [[raw|e]|]; [|done|done]. cbn.
  rewrite convertible_spec. by destruct (convert_type raw).
Qed.

(** ** The configuration file *)

(** The loop of [load_config_file], with what it finds for a key. *)
Lemma load_config_file_loop (own defaults : section) (keys : list string)
    (self : gmap string pyval) :
  for_each (fun key self =>
      if bool_decide (key ∈ field_names) then
        raw ← section_get "settings" own defaults key;
        v ← convert_type raw;
        Ok (<[key := v]> self)
      else Ok self) keys self =
  for_each (set_found (fun key =>
      if bool_decide (key ∈ field_names)
      then Some (convert_text (section_get "settings" own defaults key))
      else None)) keys self.
Proof.
  apply for_each_ext. intros k s _. unfold set_found, convert_text.
  case_bool_decide; [|done].
  by destruct (section_get "settings" own defaults k).
Qed.

(** [load_config_file]: when it returns, fields are settled by the
    [settings] section and the other attributes stay. *)
Lemma load_config_file_settled (w : world) (self s1 : gmap string pyval) :
  load_config_file w self = Ok s1 ->
  forall f, settled (if bool_decide (f ∈ field_names)
                     then convert_text <$> config_text w f else None)
                    (self !! f) (s1 !! f).
Proof.
  intros Hrun f. unfold load_config_file, config_text in *.
  destruct (read_config w) as [cp|e]; [|done]. cbn [mbind res_bind] in Hrun.
  destruct (cp !! "settings") as [own|]; cbn [mbind option_bind].
  - rewrite load_config_file_loop in Hrun.
    pose proof (for_each_set_settled _ _ _ _ Hrun f) as H. cbn beta in H.
    destruct (bool_decide (f ∈ options own (default_section cp)));
      destruct (bool_decide (f ∈ field_names)); exact H.
  - injection Hrun as <-. by case_bool_decide.
Qed.

(** [load_config_file] returns exactly when the file parses and every
    option of a field gives a text that is convertible. *)
Lemma load_config_file_returns (w : world) (self : gmap string pyval) :
  (exists s1, load_config_file w self = Ok s1) <->
  (exists cp, read_config w = Ok cp) /\
  forallb (fun f => text_ok (config_text w f)) field_names = true.
Proof.
  unfold load_config_file, config_text.
  destruct (read_config w) as [cp|e]; cbn [mbind res_bind].
  2:{ split; [by intros [? ?]|by intros [[? ?] _]]. }
  destruct (cp !! "settings") as [own|]; cbn [mbind option_bind].
  2:{ split; [|by eexists]. intros _. split; [by eexists|].
      apply forallb_elem_of. done. }
  rewrite load_config_file_loop, for_each_set_returns, !forallb_elem_of.
  split.
  - intros H. split; [by eexists|]. intros f Hf.
    case_bool_decide as Hopt; [|done].
    specialize (H f Hopt). cbn beta in H.
    rewrite bool_decide_eq_true_2 in H by done.
    by rewrite text_ok_found.
  - intros [_ H] k Hk. case_bool_decide as Hf; [|done].
    specialize (H k Hf). cbn beta in H.
    rewrite bool_decide_eq_true_2 in H by done.
    by rewrite text_ok_found in H.
Qed.

(** ** The environment *)

Lemma merged_text_env (w : world) (f : string) :
  merged_text w f =
  match env_value w f with Some v => Some (Ok v) | None => config_text w f end.
Proof.
  unfold merged_text, env_value.
  by destruct (environ w !! ("JACLANG_" ++ upper f)).
Qed.

(** The loop of [load_env_vars], with what it finds for a key. *)
Lemma load_env_vars_loop (w : world) (self : gmap string pyval) :
  for_each (fun key self =>
      match env_value w key with
      | Some raw => v ← convert_type raw; Ok (<[key := v]> self)
      | None => Ok self
      end) field_names self =
  for_each (set_found (fun key => convert_type <$> env_value w key)) field_names self.
Proof.
  apply for_each_ext. intros k s _. unfold set_found.
  by destruct (env_value w k).
Qed.

(** [load_env_vars]: when it returns, fields are settled by the
    environment; the pod manager URL is then taken from POD_MANAGER_URL as
    it is. *)
Lemma load_env_vars_settled (w : world) (self s2 : gmap string pyval) :
  load_env_vars w self = Ok s2 ->
  (forall u, environ w !! "POD_MANAGER_URL" = Some u ->
             s2 !! "pod_manager_url" = Some (PStr u)) /\
  (forall f, f <> "pod_manager_url" \/ environ w !! "POD_MANAGER_URL" = None ->
     settled (if bool_decide (f ∈ field_names)
              then convert_type <$> env_value w f else None)
             (self !! f) (s2 !! f)).
Proof.
  intros Hrun. unfold load_env_vars in Hrun. rewrite load_env_vars_loop in Hrun.
  destruct (for_each _ field_names self) as [t|] eqn:Hloop; [|done].
  cbn [mbind res_bind] in Hrun.
  pose proof (for_each_set_settled _ _ _ _ Hloop) as Hset. cbn beta in Hset.
  unfold getattr in Hrun.
  destruct (t !! "pod_manager_url") as [url|] eqn:Hurl; [|done].
  cbn [mbind res_bind] in Hrun. injection Hrun as <-. split.
  - intros u ->. by rewrite lookup_insert_eq.
  - intros f [Hf|Hpod].
    + rewrite lookup_insert_ne by done. apply Hset.
    + rewrite Hpod. cbn. rewrite insert_id by done. apply Hset.
Qed.

(** [load_env_vars] returns exactly when every selected variable is
    convertible. *)
Lemma load_env_vars_returns (w : world) (self : gmap string pyval) :
  is_Some (self !! "pod_manager_url") ->
  (exists s2, load_env_vars w self = Ok s2) <->
  forallb (fun f => text_ok (Ok <$> env_value w f)) field_names = true.
Proof.
  intros Hurl. unfold load_env_vars. rewrite load_env_vars_loop.
  assert (Hsame : forallb (fun f => text_ok (Ok <$> env_value w f)) field_names
                  = forallb (fun k => found_ok (convert_type <$> env_value w k))
                            field_names).
  { apply forallb_same. intros f. rewrite text_ok_found.
    by destruct (env_value w f). }
  rewrite Hsame, <- (for_each_set_returns _ _ self).
  destruct (for_each _ field_names self) as [t|e] eqn:Hloop; cbn [mbind res_bind].
  - split; [by eexists|]. intros _.
    pose proof (for_each_set_settled _ _ _ _ Hloop "pod_manager_url") as Hset.
    destruct (settled_is_Some _ _ _ Hset Hurl) as [url Hget].
    unfold getattr. rewrite Hget. cbn. by eexists.
  - split; by intros [? ?].
Qed.

(** ** The modules section *)

(** The loop of [section_dict], with what it finds for a key. *)
Lemma section_dict_loop (name : string) (own defaults : section)
    (keys : list string) (d : gmap string pyval) :
  for_each (fun key (d : gmap string pyval) =>
      v ← section_get name own defaults key;
      Ok (<[key := PStr v]> d)) keys d =
  for_each (set_found (fun key => Some (PStr <$> section_get name own defaults key)))
           keys d.
Proof.
  apply for_each_ext. intros k s _. unfold set_found.
  by destruct (section_get name own defaults k).
Qed.

(** [dict(proxy)] returns exactly when every option interpolates. *)
Lemma section_dict_returns (name : string) (own defaults : section) :
  (exists d, section_dict name own defaults = Ok d) <->
  forallb (fun key => match section_get name own defaults key with
                      | Ok _ => true
                      | Raise _ => false
                      end) (options own defaults) = true.
Proof.
  unfold section_dict. rewrite section_dict_loop.
  assert (Hsame : forallb (fun key => match section_get name own defaults key with
                                      | Ok _ => true
                                      | Raise _ => false
                                      end) (options own defaults)
                  = forallb (fun k => found_ok
                               (Some (PStr <$> section_get name own defaults k)))
                            (options own defaults)).
  { apply forallb_same. intros k. by destruct (section_get name own defaults k). }
  rewrite Hsame, <- (for_each_set_returns _ _ ∅).
  destruct (for_each _ (options own defaults) ∅) as [d|e]; cbn [mbind res_bind].
  - split; by eexists.
  - split; by intros [? ?].
Qed.

(** What [dict(proxy)] holds: for every option the proxy iterates over,
    the text the proxy gives for it, as a string, and nothing else. *)
Lemma section_dict_lookup (name : string) (own defaults : section) (v : pyval) :
  section_dict name own defaults = Ok v ->
  exists d : gmap string pyval,
    v = PDict d /\
    (forall k, k ∈ options own defaults ->
       exists text, section_get name own defaults k = Ok text /\
                    d !! k = Some (PStr text)) /\
    (forall k, k ∉ options own defaults -> d !! k = None).
Proof.
  unfold section_dict. rewrite section_dict_loop.
  destruct (for_each _ (options own defaults) ∅) as [d|e] eqn:Hloop; [|done].
  cbn [mbind res_bind]. intros [= <-]. exists d. split; [done|].
  pose proof (for_each_set_settled _ _ _ _ Hloop) as Hset. cbn beta in Hset.
  split.
  - intros k Hk. specialize (Hset k).
    rewrite bool_decide_eq_true_2 in Hset by done.
    destruct Hset as (x & Hx & ->).
    destruct (section_get name own defaults k) as [text|]; [|done].
    injection Hx as <-. by exists text.
  - intros k Hk. specialize (Hset k).
    by rewrite bool_decide_eq_false_2 in Hset by done.
Qed.

(** [load_modules_to_remote], when it returns. *)
Lemma load_modules_to_remote_settled (w : world) (self s3 : gmap string pyval) :
  load_modules_to_remote w self = Ok s3 ->
  s3 !! "modules_to_remote" = s3 !! "module_config" /\
  (forall r, modules_dict w = Some r ->
     exists d, r = Ok d /\ s3 !! "module_config" = Some d) /\
  (modules_dict w = None -> s3 !! "module_config" = self !! "module_config") /\
  (forall f, f <> "modules_to_remote" -> f <> "module_config" ->
     s3 !! f = self !! f).
Proof.
  unfold load_modules_to_remote, modules_dict, getattr.
  destruct (read_config w) as [cp|e]; [|done]. cbn [mbind res_bind].
  destruct (cp !! "modules") as [own|]; cbn [mbind option_bind].
  - destruct (section_dict "modules" own (default_section cp)) as [d|e]; [|done].
    cbn [mbind res_bind]. rewrite lookup_insert_eq. cbn [mbind res_bind].
    intros [= <-]. split; [|split; [|split]].
    + by rewrite lookup_insert_eq, lookup_insert_ne, lookup_insert_eq.
    + intros r [= <-]. exists d. split; [done|].
      by rewrite lookup_insert_ne, lookup_insert_eq.
    + done.
    + intros f ? ?. by rewrite !lookup_insert_ne.
  - cbn [mbind res_bind].
    destruct (self !! "module_config") as [mc|] eqn:Hmc; [|done].
    cbn [mbind res_bind]. intros [= <-]. split; [|split; [|split]].
    + by rewrite lookup_insert_eq, lookup_insert_ne.
    + done.
    + intros _. by rewrite lookup_insert_ne.
    + intros f ? ?. by rewrite lookup_insert_ne.
Qed.

(** [load_modules_to_remote] returns exactly when the file parses and its
    [modules] section interpolates. *)
Lemma load_modules_to_remote_returns (w : world) (self : gmap string pyval) :
  is_Some (self !! "module_config") ->
  (exists s3, load_modules_to_remote w self = Ok s3) <-> modules_ok w = true.
Proof.
  intros [mc Hmc]. unfold load_modules_to_remote, modules_ok, getattr.
  destruct (read_config w) as [cp|e]; cbn [mbind res_bind].
  2:{ split; [by intros [? ?]|done]. }
  destruct (cp !! "modules") as [own|].
  - rewrite <- section_dict_returns.
    destruct (section_dict "modules" own (default_section cp)) as [d|e];
      cbn [mbind res_bind].
    + rewrite lookup_insert_eq. cbn [mbind res_bind]. split; by eexists.
    + split; by intros [? ?].
  - cbn [mbind res_bind]. rewrite Hmc. cbn [mbind res_bind]. split; [done|by eexists].
Qed.

(** ** All three steps *)

(** What [load_all] leaves when it returns. *)
Lemma load_all_outcome (w : world) (self self' : gmap string pyval) :
  load_all w self = Ok self' -> merge_outcome w self self'.
Proof.
  unfold load_all. intros Hrun.
  destruct (load_config_file w self) as [s1|] eqn:H1; [|done].
  cbn [mbind res_bind] in Hrun.
  destruct (load_env_vars w s1) as [s2|] eqn:H2; [|done].
  cbn [mbind res_bind] in Hrun.
  pose proof (load_config_file_settled w self s1 H1) as Hcfg.
  destruct (load_env_vars_settled w s1 s2 H2) as [Hpod Henv].
  destruct (load_modules_to_remote_settled w s2 self' Hrun)
    as (Hmtr & Hsec & Hnosec & Hrest).
  assert (Hmerged : forall f, f ∈ field_names ->
            f <> "pod_manager_url" \/ environ w !! "POD_MANAGER_URL" = None ->
            decided (merged_text w f) (self !! f) (s2 !! f)).
  { intros f Hf Hor. unfold decided. rewrite merged_text_env.
    specialize (Hcfg f). specialize (Henv f Hor).
    rewrite bool_decide_eq_true_2 in Hcfg, Henv by done.
    pose proof (settled_then _ _ _ _ _ Hcfg Henv) as H.
    by destruct (env_value w f). }
  unfold merge_outcome. repeat split.
  - intros f Hf Hnot. rewrite !not_elem_of_cons in Hnot.
    destruct Hnot as (Hn1 & Hn2 & Hn3 & _).
    rewrite Hrest by done. apply Hmerged; [done|by left].
  - intros u Hu. rewrite Hrest by done. by apply Hpod.
  - intros Hu. rewrite Hrest by done. apply Hmerged; [by_decision|by right].
  - done.
  - intros Hno. rewrite (Hnosec Hno). apply Hmerged; [by_decision|by left].
  - done.
Qed.

(** [load_all] on an instance that has its fields returns exactly when
    nothing stops the loading. *)
Lemma load_all_returns (w : world) (self : gmap string pyval) :
  has_fields self ->
  (exists self', load_all w self = Ok self') <-> loads_cleanly w = true.
Proof.
  intros Hself. unfold load_all, loads_cleanly.
  assert (Hpodf : "pod_manager_url" ∈ field_names) by by_decision.
  assert (Hmcf : "module_config" ∈ field_names) by by_decision.
  pose proof (load_config_file_returns w self) as R1.
  destruct (load_config_file w self) as [s1|e1] eqn:H1; cbn [mbind res_bind].
  2:{ split; [by intros [? ?]|]. intros Hclean.
      destruct (read_config w) as [cp|]; [|done].
      apply andb_true_iff in Hclean as [[Hc _]%andb_true_iff _].
      destruct (proj2 R1) as [? ?]; [|done]. split; [by eexists|done]. }
  destruct (proj1 R1) as [[cp Hread] Hcfg]; [by eexists|]. rewrite Hread.
  rewrite Hcfg. cbn [andb].
  assert (Hs1 : forall f, f ∈ field_names -> is_Some (s1 !! f)).
  { intros f Hf. eapply settled_is_Some;
      [apply (load_config_file_settled w self s1 H1)|by apply Hself]. }
  pose proof (load_env_vars_returns w s1 (Hs1 _ Hpodf)) as R2.
  destruct (load_env_vars w s1) as [s2|e2] eqn:H2; cbn [mbind res_bind].
  2:{ split; [by intros [? ?]|]. intros [He _]%andb_true_iff.
      destruct (proj2 R2 He) as [? ?]. done. }
  rewrite (proj1 R2) by (by eexists). cbn [andb].
  apply load_modules_to_remote_returns.
  destruct (load_env_vars_settled w s1 s2 H2) as [_ Henv].
  eapply settled_is_Some; [apply (Henv "module_config"); by left|by apply Hs1].
Qed.

(** [load_all] reads the ambient state through what the configuration
    file shows, the per-field environment values and POD_MANAGER_URL
    only. *)
Lemma load_all_agree (w1 w2 : world) (self : gmap string pyval) :
  config_view w1 = config_view w2 ->
  (forall f, f ∈ field_names -> env_value w1 f = env_value w2 f) ->
  environ w1 !! "POD_MANAGER_URL" = environ w2 !! "POD_MANAGER_URL" ->
  load_all w1 self = load_all w2 self.
Proof.
  intros Hview Henv Hpod. unfold config_view in Hview.
  assert (H2 : forall s, load_env_vars w1 s = load_env_vars w2 s).
  { intros s. unfold load_env_vars. rewrite Hpod.
    rewrite (for_each_ext _ (fun key self =>
               match env_value w2 key with
               | Some raw => v ← convert_type raw; Ok (<[key := v]> self)
               | None => Ok self
               end) field_names s); [done|].
    intros f t Hf. by rewrite (Henv f Hf). }
  destruct (read_config w1) as [cp1|e1] eqn:Hr1,
           (read_config w2) as [cp2|e2] eqn:Hr2;
    cbn [mbind res_bind] in Hview; try discriminate Hview.
  - injection Hview as Hset Hmod Hdef.
    assert (H1 : forall s, load_config_file w1 s = load_config_file w2 s).
    { intros s. unfold load_config_file, default_section.
      rewrite Hr1, Hr2. cbn [mbind res_bind]. by rewrite Hset, Hdef. }
    assert (H3 : forall s, load_modules_to_remote w1 s = load_modules_to_remote w2 s).
    { intros s. unfold load_modules_to_remote, default_section.
      rewrite Hr1, Hr2. cbn [mbind res_bind]. by rewrite Hmod, Hdef. }
    unfold load_all. rewrite H1.
    destruct (load_config_file w2 self) as [s1|]; [|done]. cbn [mbind res_bind].
    rewrite H2. destruct (load_env_vars w2 s1) as [s2|]; [|done]. cbn [mbind res_bind].
    apply H3.
  - injection Hview as <-. unfold load_all, load_config_file.
    by rewrite Hr1, Hr2.
Qed.

Lemma defaults_has_fields : has_fields defaults.
Proof. members_by_decision. Qed.

(** ** The claims *)

(** C9, as the code has it. A non-empty string of decimal digits, of at
    most 4300 characters, is converted to the integer it denotes (the
    number the Standard Library reads from the same string); no string that
    passes [isdigit] is ever converted to a boolean, although
    [str_to_bool] counts the string 1 as true; so, whenever the loading
    returns, a field whose deciding text (from the configuration file or
    the environment) is such a string of digits ends up holding that
    integer, and the loading does return on an instance that has its
    fields when nothing stops it. *)
Theorem digits_convert_to_int (s : string) :
  s <> "" -> all_chars is_decimal s = true -> (len s <= max_str_digits)%N ->
  exists d : uint,
    NilEmpty.uint_of_string s = Some d /\
    convert_type s = Ok (PInt (Z.of_uint d)) /\
    (forall t b, isdigit t = true -> convert_type t <> Ok (PBool b)) /\
    (s = "1" -> str_to_bool s = true /\ Z.of_uint d = 1%Z) /\
    (s = "0" -> Z.of_uint d = 0%Z) /\
    (forall (w : world) (self : gmap string pyval) (f : string),
       f ∈ field_names ->
       f ∉ ["pod_manager_url"; "module_config"; "modules_to_remote"] ->
       merged_text w f = Some (Ok s) ->
       (forall self' : gmap string pyval,
          load_all w self = Ok self' -> self' !! f = Some (PInt (Z.of_uint d))) /\
       (has_fields self -> loads_cleanly w = true ->
        exists self' : gmap string pyval, load_all w self = Ok self')).
Proof.
  intros Hne Hall Hlen.
  destruct (all_decimal_uint s Hall) as [d Hd]. exists d.
  pose proof (convert_type_digits s Hne Hall Hlen) as Hconv.
  rewrite (digits_value_of_uint s d Hd) in Hconv.
  split; [done|]. split; [done|]. split; [intros t b; apply convert_type_isdigit|].
  split; [|split].
  - intros ->. injection Hd as <-. by vm_compute.
  - intros ->. injection Hd as <-. by vm_compute.
  - intros w self f Hf Hnot Hs. split.
    + intros self' Hrun.
      destruct (load_all_outcome w self self' Hrun) as (Hord & _).
      specialize (Hord f Hf Hnot). rewrite Hs in Hord.
      destruct Hord as (v & Hv & ->). cbn in Hv. congruence.
    + intros Hself Hclean. by apply (load_all_returns w self Hself).
Qed.

(** C10, as the code has it. On an instance that has its fields,
    [load_all] returns exactly when nothing stops the loading: the
    configuration file parses, every text consulted for a field is there
    without an interpolation error and is convertible, and the [modules]
    section interpolates.  When it returns, for every field other than
    [module_config] and [modules_to_remote] the configuration file (its
    [settings] section with the options of [DEFAULT]) is loaded first and
    the environment overrides it, [JACLANG_<NAME>] before [JAC_<NAME>];
    [pod_manager_url] is overridden last by POD_MANAGER_URL, taken as it
    is, whenever that variable is set.  [module_config] is replaced by the
    dict of the [modules] section of the configuration file when there is
    one, and [modules_to_remote] always ends up equal to
    [module_config]. *)
Theorem load_all_merge_order (w : world) (self : gmap string pyval) :
  has_fields self ->
  ((exists self' : gmap string pyval, load_all w self = Ok self') <->
   loads_cleanly w = true) /\
  (forall self' : gmap string pyval,
     load_all w self = Ok self' -> merge_outcome w self self').
Proof.
  intros Hself. split.
  - by apply load_all_returns.
  - intros self'. apply load_all_outcome.
Qed.

(** C8, as the code has it. The settings object is built from the ambient
    state: for the same explicit instance, two worlds give the same
    settings, or the same exception, as soon as they agree on the home
    directory, on what the configuration file shows once it is created
    (whether it parses, and its [settings], [modules] and [DEFAULT]
    sections), on the environment values of the fields and on
    POD_MANAGER_URL; nothing else of the ambient state is read. *)
Theorem settings_depend_on_ambient (w1 w2 : world) (self : gmap string pyval) :
  home_dir w1 = home_dir w2 ->
  config_view (ensure_config w1) = config_view (ensure_config w2) ->
  (forall f, f ∈ field_names -> env_value w1 f = env_value w2 f) ->
  environ w1 !! "POD_MANAGER_URL" = environ w2 !! "POD_MANAGER_URL" ->
  fst <$> __post_init__ w1 self = fst <$> __post_init__ w2 self.
Proof.
  intros Hhome Hview Henv Hpod. unfold __post_init__.
  assert (Hsame : forall w, environ (ensure_config w) = environ w).
  { intros w. unfold ensure_config. by destruct (config_file w). }
  rewrite Hhome.
  rewrite (load_all_agree (ensure_config w1) (ensure_config w2)); try done.
  - by destruct (load_all (ensure_config w2) _).
  - intros f Hf. unfold env_value. rewrite !Hsame. by apply Henv.
  - by rewrite !Hsame.
Qed.

(** ** The claims on sample worlds *)

Lemma digits_convert_to_int_witness :
  "1" <> "" /\ all_chars is_decimal "1" = true /\ (len "1" <= max_str_digits)%N /\
  exists d : uint,
    NilEmpty.uint_of_string "1" = Some d /\
    convert_type "1" = Ok (PInt (Z.of_uint d)) /\
    (forall t b, isdigit t = true -> convert_type t <> Ok (PBool b)) /\
    ("1" = "1" -> str_to_bool "1" = true /\ Z.of_uint d = 1%Z) /\
    ("1" = "0" -> Z.of_uint d = 0%Z) /\
    (forall (w : world) (self : gmap string pyval) (f : string),
       f ∈ field_names ->
       f ∉ ["pod_manager_url"; "module_config"; "modules_to_remote"] ->
       merged_text w f = Some (Ok "1") ->
       (forall self' : gmap string pyval,
          load_all w self = Ok self' -> self' !! f = Some (PInt (Z.of_uint d))) /\
       (has_fields self -> loads_cleanly w = true ->
        exists self' : gmap string pyval, load_all w self = Ok self')).
Proof.
  assert (Hlen : (len "1" <= max_str_digits)%N) by (vm_compute; discriminate).
  split; [discriminate|]. split; [reflexivity|]. split; [exact Hlen|].
  apply (digits_convert_to_int "1"); [discriminate|reflexivity|exact Hlen].
Defined.

(** C9 as stated fails.  A string of 4301 nines consists only of decimal
    digits and is not converted: [int] raises the [ValueError] of its
    limit, and so does the construction of the settings when a variable of
    the environment holds the string.  A superscript two is a digit for
    [isdigit] and is not converted either. *)
Lemma digits_beyond_int :
  all_chars is_decimal nines = true /\ isdigit nines = true /\
  len nines = 4301%N /\
  convert_type nines = Raise (exceeds_limit 4301) /\
  (fst <$> settings (set_env bare_world "JAC_MAX_LINE_LENGTH" nines))
    = Raise (exceeds_limit 4301) /\
  isdigit (String (ascii_of_N 178) "") = true /\
  convert_type (String (ascii_of_N 178) "")
    = Raise (invalid_literal (String (ascii_of_N 178) "")).
Proof. repeat split; vm_compute; reflexivity. Qed.

Example config_file_path_sample :
  (r ← settings bare_world; getattr r.1 "config_file_path")
    = Ok (PStr "/home/jac/.jaclang/config.ini") /\
  (snd <$> settings bare_world) = Ok (ensure_config bare_world) /\
  config_file (ensure_config bare_world) = Some {[ "settings" := [] ]}.
Proof. repeat split; vm_compute; reflexivity. Qed.

(** The boolean field [lsp_debug] set to 1 in the environment, and
    [pass_timer] set to yes in the file. *)
Example busy_world_lsp_debug :
  (self ← load_all busy_world defaults; getattr self "lsp_debug") = Ok (PInt 1) /\
  (self ← load_all busy_world defaults; getattr self "pass_timer") = Ok (PBool true) /\
  (self ← load_all busy_world defaults; getattr self "max_line_length") = Ok (PInt 79) /\
  (self ← load_all busy_world defaults; getattr self "pod_manager_url")
    = Ok (PStr "http://pods").
Proof. repeat split; vm_compute; reflexivity. Qed.

(** The [DEFAULT] section of the file speaks for the [settings] section, a
    lone percent sign in a value of the file and a file that does not parse
    stop the construction of the settings. *)
Example default_section_sample :
  (r ← settings default_world; getattr r.1 "max_line_length") = Ok (PInt 100) /\
  (fst <$> settings percent_world)
    = Raise (InterpolationSyntaxError "pod_manager_url" "settings") /\
  (fst <$> settings garbled_world)
    = Raise (ConfigParserError "MissingSectionHeaderError") /\
  loads_cleanly default_world = true /\
  loads_cleanly percent_world = false /\
  loads_cleanly garbled_world = false.
Proof. repeat split; vm_compute; reflexivity. Qed.

Lemma load_all_merge_order_witness :
  has_fields defaults /\ loads_cleanly busy_world = true /\
  exists self' : gmap string pyval,
    load_all busy_world defaults = Ok self' /\
    merge_outcome busy_world defaults self'.
Proof.
  assert (H1 : has_fields defaults) by members_by_decision.
  assert (H2 : loads_cleanly busy_world = true) by (vm_compute; reflexivity).
  split; [exact H1|]. split; [exact H2|].
  destruct (load_all_merge_order busy_world defaults H1) as [Hret Hout].
  destruct (proj2 Hret H2) as [self' Hrun].
  exists self'. split; [exact Hrun|]. exact (Hout self' Hrun).
Defined.

(** C10 as stated fails for the two module fields: with a [modules]
    section in the file and both fields named in the environment, the text
    that the stated order selects is the one of the environment, and yet
    [module_config] ends up holding the section of the file and
    [modules_to_remote] the same dict. *)
Lemma module_fields_not_from_environment :
  merged_text modules_world "module_config" = Some (Ok "from_env") /\
  merged_text modules_world "modules_to_remote" = Some (Ok "from_env") /\
  convert_type "from_env" = Ok (PStr "from_env") /\
  (self ← load_all modules_world defaults; getattr self "module_config")
    = Ok (PDict {[ "numpy" := PStr "local" ]}) /\
  (self ← load_all modules_world defaults; getattr self "modules_to_remote")
    = Ok (PDict {[ "numpy" := PStr "local" ]}) /\
  PDict {[ "numpy" := PStr "local" ]} <> PStr "from_env".
Proof. repeat split; try (vm_compute; reflexivity). discriminate. Qed.

Lemma settings_depend_on_ambient_witness :
  home_dir busy_world = home_dir busy_world' /\
  config_view (ensure_config busy_world) = config_view (ensure_config busy_world') /\
  fst <$> __post_init__ busy_world defaults =
  fst <$> __post_init__ busy_world' defaults.
Proof.
  assert (Hview : config_view (ensure_config busy_world)
                  = config_view (ensure_config busy_world'))
    by (vm_compute; reflexivity).
  split; [reflexivity|]. split; [exact Hview|].
  apply (settings_depend_on_ambient busy_world busy_world' defaults).
  - reflexivity.
  - exact Hview.
  - members_by_decision.
  - reflexivity.
Defined.

(** C8 as stated fails: the same explicit instance gives different
    settings when only an environment variable, or only the configuration
    file in the home directory, differs. *)
Lemma settings_read_ambient_state :
  fst <$> __post_init__ bare_world defaults <>
    fst <$> __post_init__ wide_world defaults /\
  fst <$> __post_init__ bare_world defaults <>
    fst <$> __post_init__ filed_world defaults /\
  (r ← settings bare_world; getattr r.1 "max_line_length") = Ok (PInt 88) /\
  (r ← settings wide_world; getattr r.1 "max_line_length") = Ok (PInt 100) /\
  (r ← settings filed_world; getattr r.1 "max_line_length") = Ok (PInt 100).
Proof.
  assert (Hlook : forall r1 r2 : result (gmap string pyval),
            r1 = r2 ->
            (self ← r1; getattr self "max_line_length") =
            (self ← r2; getattr self "max_line_length")) by (by intros ? ? ->).
  split; [|split; [|repeat split; vm_compute; reflexivity]];
    intros H%Hlook; vm_compute in H; discriminate H.
Qed.

End SettingsFacts.

(* ===================================================================== *)
(** * Properties of the request binder and the API description *)
(* ===================================================================== *)

Module BinderFacts.

(** ** Parts of a multipart body *)

Lemma file_part_elem (n : string) (parts : list part) fn ct c :
  file_part n parts = Some (fn, ct, c) -> FilePart n fn ct c ∈ parts.
Proof.
  induction parts as [|[n' v|n' fn' ct' c'] parts IH]; cbn; [done| |].
  - intros H. right. by apply IH.
  - destruct (String.eqb_spec n' n) as [->|Hne].
    + intros [= -> -> ->]. left.
    + intros H. right. by apply IH.
Qed.

Lemma elem_file_names (n : string) (parts : list part) fn ct c :
  FilePart n fn ct c ∈ parts -> n ∈ file_names parts.
Proof.
  induction parts as [|[n' v|n' fn' ct' c'] parts IH]; cbn.
  - by intros ?%elem_of_nil.
  - intros [?|?]%elem_of_cons; [done|by apply IH].
  - intros [[= -> -> -> ->]|?]%elem_of_cons; [left|right; by apply IH].
Qed.

Lemma file_part_unique (n : string) (parts : list part) fn ct c :
  NoDup (file_names parts) -> FilePart n fn ct c ∈ parts ->
  file_part n parts = Some (fn, ct, c).
Proof.
  induction parts as [|[n' v|n' fn' ct' c'] parts IH]; cbn.
  - by intros _ ?%elem_of_nil.
  - intros Hnd [?|?]%elem_of_cons; [done|by apply IH].
  - intros [Hnotin Hnd]%NoDup_cons [[= -> -> -> ->]|Hin]%elem_of_cons.
    + by rewrite String.eqb_refl.
    + destruct (String.eqb_spec n' n) as [->|Hne]; [|by apply IH].
      destruct Hnotin. by eapply elem_file_names.
Qed.

Lemma file_names_perm (parts parts' : list part) :
  parts ≡ₚ parts' -> file_names parts ≡ₚ file_names parts'.
Proof.
  induction 1 as [|x l l' _ IH|x y l|l l' l'' _ IH1 _ IH2].
  - done.
  - destruct x; cbn; [done|by constructor].
  - destruct x, y; cbn; try done. apply perm_swap.
  - by etrans.
Qed.

Lemma file_part_perm (n : string) (parts parts' : list part) :
  NoDup (file_names parts) -> parts ≡ₚ parts' ->
  file_part n parts' = file_part n parts.
Proof.
  intros Hnd Hperm.
  assert (Hnd' : NoDup (file_names parts')) by (by rewrite <- (file_names_perm _ _ Hperm)).
  destruct (file_part n parts) as [[[fn ct] c]|] eqn:H.
  - apply file_part_unique; [done|]. rewrite <- Hperm. by apply file_part_elem.
  - destruct (file_part n parts') as [[[fn ct] c]|] eqn:H'; [|done].
    apply file_part_elem in H'. rewrite <- Hperm in H'.
    apply (file_part_unique _ _ _ _ _ Hnd) in H'. congruence.
Qed.

Lemma text_part_elem (n : string) (parts : list part) v :
  text_part n parts = Some v -> TextPart n v ∈ parts.
Proof.
  induction parts as [|[n' v'|n' fn' ct' c'] parts IH]; cbn; [done| |].
  - destruct (String.eqb_spec n' n) as [->|Hne].
    + intros [= ->]. left.
    + intros H. right. by apply IH.
  - intros H. right. by apply IH.
Qed.

Lemma elem_text_names (n : string) (parts : list part) v :
  TextPart n v ∈ parts -> n ∈ text_names parts.
Proof.
  induction parts as [|[n' v'|n' fn' ct' c'] parts IH]; cbn.
  - by intros ?%elem_of_nil.
  - intros [[= -> ->]|?]%elem_of_cons; [left|right; by apply IH].
  - intros [?|?]%elem_of_cons; [done|by apply IH].
Qed.

Lemma text_part_unique (n : string) (parts : list part) v :
  NoDup (text_names parts) -> TextPart n v ∈ parts ->
  text_part n parts = Some v.
Proof.
  induction parts as [|[n' v'|n' fn' ct' c'] parts IH]; cbn.
  - by intros _ ?%elem_of_nil.
  - intros [Hnotin Hnd]%NoDup_cons [[= -> ->]|Hin]%elem_of_cons.
    + by rewrite String.eqb_refl.
    + destruct (String.eqb_spec n' n) as [->|Hne]; [|by apply IH].
      destruct Hnotin. by eapply elem_text_names.
  - intros Hnd [?|?]%elem_of_cons; [done|by apply IH].
Qed.

Lemma text_names_perm (parts parts' : list part) :
  parts ≡ₚ parts' -> text_names parts ≡ₚ text_names parts'.
Proof.
  induction 1 as [|x l l' _ IH|x y l|l l' l'' _ IH1 _ IH2].
  - done.
  - destruct x; cbn; [by constructor|done].
  - destruct x, y; cbn; try done. apply perm_swap.
  - by etrans.
Qed.

Lemma text_part_perm (n : string) (parts parts' : list part) :
  NoDup (text_names parts) -> parts ≡ₚ parts' ->
  text_part n parts' = text_part n parts.
Proof.
  intros Hnd Hperm.
  assert (Hnd' : NoDup (text_names parts')) by (by rewrite <- (text_names_perm _ _ Hperm)).
  destruct (text_part n parts) as [v|] eqn:H.
  - apply text_part_unique; [done|]. rewrite <- Hperm. by apply text_part_elem.
  - destruct (text_part n parts') as [v|] eqn:H'; [|done].
    apply text_part_elem in H'. rewrite <- Hperm in H'.
    apply (text_part_unique _ _ _ Hnd) in H'. congruence.
Qed.

Lemma text_part_no_name (n : string) (parts : list part) :
  n ∉ text_names parts -> text_part n parts = None.
Proof.
  intros Hn. destruct (text_part n parts) as [v|] eqn:H; [|done].
  destruct Hn. eapply elem_text_names. by apply text_part_elem.
Qed.




Lemma file_part_no_files (n : string) (parts : list part) :
  file_names parts = [] -> file_part n parts = None.
Proof.
  intros Hn. destruct (file_part n parts) as [[[fn ct] c]|] eqn:H; [|done].
  apply file_part_elem, elem_file_names in H. rewrite Hn in H.
  by apply elem_of_nil in H.
Qed.

(** ** Binding *)

Section Binding.

Context {scalar : Type} `{!ScalarCodec scalar} {store : Type}.

Implicit Types (p : param scalar) (schema : list (param scalar)).

(** The step of the binder's loop. *)
Abbreviation bind_step b :=
  (fun p (inputs : gmap string value) =>
     v ← bind_param p b;
     Ok (match v with
         | Some v => <[p_name p := v]> inputs
         | None => inputs
         end)).

Lemma bind_request_agree schema (b b' : body) :
  (forall p, p ∈ schema -> bind_param p b = bind_param p b') ->
  bind_request schema b = bind_request schema b'.
Proof.
  intros H. unfold bind_request. apply for_each_ext.
  intros p inputs Hp. by rewrite (H p Hp).
Qed.

Lemma bind_param_perm p (parts parts' : list part) :
  NoDup (file_names parts) -> NoDup (text_names parts) -> parts ≡ₚ parts' ->
  bind_param p (MultipartBody parts') = bind_param p (MultipartBody parts).
Proof.
  intros Hf Ht Hperm. unfold bind_param, offered.
  by rewrite (file_part_perm _ _ _ Hf Hperm), (text_part_perm _ _ _ Ht Hperm).
Qed.

(** The loop from any start: the bound value of every parameter of the
    schema is in the result, and the other names are untouched. *)
Lemma bind_loop_lookup (b : body) schema :
  forall acc inputs : gmap string value,
  NoDup (p_name <$> schema) ->
  (forall p, p ∈ schema -> acc !! p_name p = None) ->
  for_each (bind_step b) schema acc = Ok inputs ->
  (forall p, p ∈ schema -> bind_param p b = Ok (inputs !! p_name p)) /\
  (forall n, n ∉ p_name <$> schema -> inputs !! n = acc !! n).
Proof.
  induction schema as [|p0 schema IH]; intros acc inputs Hnd Hfresh Hrun.
  - injection Hrun as <-. split; [by intros p ?%elem_of_nil|done].
  - cbn [for_each] in Hrun. rewrite fmap_cons in Hnd.
    apply NoDup_cons in Hnd as [Hp0 Hnd].
    destruct (bind_param p0 b) as [v0|e] eqn:Hb0; [|done].
    cbn [mbind res_bind] in Hrun.
    apply IH in Hrun as [Hin Hout]; [|done|].
    2:{ intros p Hp.
        assert (p_name p <> p_name p0).
        { intros Heq. apply Hp0. rewrite <- Heq. by apply list_elem_of_fmap_2. }
        destruct v0; [rewrite lookup_insert_ne by done|]; apply Hfresh; by right. }
    split.
    + intros p [->|Hp]%elem_of_cons; [|by apply Hin].
      rewrite (Hout _ Hp0). destruct v0 as [v0|].
      * by rewrite lookup_insert_eq.
      * rewrite Hfresh; [done|by left].
    + intros n Hn. rewrite fmap_cons in Hn.
      apply not_elem_of_cons in Hn as [Hne Hn]. rewrite (Hout _ Hn).
      destruct v0; [by rewrite lookup_insert_ne|done].
Qed.

Lemma bind_request_lookup schema (b : body) (inputs : gmap string value) :
  NoDup (p_name <$> schema) ->
  bind_request schema b = Ok inputs ->
  forall p, p ∈ schema -> bind_param p b = Ok (inputs !! p_name p).
Proof.
  intros Hnd Hrun. by eapply (bind_loop_lookup b schema ∅ inputs).
Qed.



(** A file parameter is bound to the upload made from its part. *)
Lemma bind_param_file p (parts : list part) fn ct c :
  p_type p = File -> file_part (p_name p) parts = Some (fn, ct, c) ->
  bind_param p (MultipartBody parts) = Ok (Some (Upload (from_bytes fn c ct))).
Proof. intros Hty Hpart. unfold bind_param, offered. by rewrite Hty, Hpart. Qed.

(** A parameter that is not a file and has no text field takes its
    default. *)
Lemma bind_param_default p (parts : list part) (d : value) :
  p_type p <> File -> text_part (p_name p) parts = None -> p_default p = Some d ->
  bind_param p (MultipartBody parts) = Ok (Some d).
Proof.
  intros Hty Hpart Hd. unfold bind_param, offered.
  destruct (p_type p); [| |done]; by rewrite Hpart, Hd.
Qed.

End Binding.

(** ** The claims *)

Section Claims.

Context {scalar : Type} `{!ScalarCodec scalar} {store : Type}.

Implicit Types (p : param scalar) (schema : list (param scalar)).

(** C3. Each file parameter is bound from the file part whose field name
    is the parameter's name, whatever the other parameters are and in
    whatever order the parts arrive; in particular the two files and the
    label of the multiple-upload test are reported each under its own
    name. *)
Theorem file_params_bound_by_name schema (parts parts' : list part) :
  NoDup (p_name <$> schema) ->
  NoDup (file_names parts) -> NoDup (text_names parts) ->
  parts ≡ₚ parts' ->
  bind_request schema (MultipartBody parts') =
    bind_request schema (MultipartBody parts) /\
  (forall p fn ct c,
     p_type p = File -> FilePart (p_name p) fn ct c ∈ parts ->
     bind_param p (MultipartBody parts') = Ok (Some (Upload (from_bytes fn c ct))) /\
     (p ∈ schema ->
      forall inputs, bind_request schema (MultipartBody parts') = Ok inputs ->
        inputs !! p_name p = Some (Upload (from_bytes fn c ct)))) /\
  (forall (st : store) (c1 c2 : list Byte.byte) (label : string),
     let report := PDict (list_to_map
       [ ("file1", PDict (list_to_map
            [ ("filename", PStr "first.txt"); ("size", PInt (Z.of_nat (length c1))) ]));
         ("file2", PDict (list_to_map
            [ ("filename", PStr "second.txt"); ("size", PInt (Z.of_nat (length c2))) ]));
         ("label", PStr label) ]) in
     post_walker (scalar := scalar) file_upload_api st "UploadMultipleFiles"
                 (multiple_upload c1 c2 label)
       = (success_envelope [report], st) /\
     examined (success_envelope [report]) = Ok report).
Proof.
  intros Hschema Hf Ht Hperm. split; [|split].
  - apply bind_request_agree. intros p _. by apply bind_param_perm.
  - intros p fn ct c Hty Hin.
    assert (Hb : bind_param p (MultipartBody parts')
                 = Ok (Some (Upload (from_bytes fn c ct)))).
    { rewrite (bind_param_perm p parts parts') by done.
      apply bind_param_file; [done|]. by apply file_part_unique. }
    split; [done|]. intros Hp inputs Hrun.
    pose proof (bind_request_lookup _ _ _ Hschema Hrun p Hp) as Hlook.
    congruence.
  - intros st c1 c2 label. split; reflexivity.
Qed.

(** C4. A file parameter bound from a part carries the part's filename,
    its bytes, its declared content type and the byte length as size; in
    particular an upload of no bytes is answered by a success envelope
    whose report has size 0. *)
Theorem upload_carries_part p (parts : list part) fn ct c :
  p_type p = File -> file_part (p_name p) parts = Some (fn, ct, c) ->
  (exists f : UploadFile,
     bind_param p (MultipartBody parts) = Ok (Some (Upload f)) /\
     filename f = fn /\ content f = c /\ content_type f = ct /\
     size f = Z.of_nat (length c)) /\
  (forall (st : store) (fn ct description : string),
     let report := PDict (list_to_map
       [ ("filename", PStr fn); ("size", PInt 0);
         ("content_type", PStr ct); ("description", PStr description) ]) in
     post_walker (scalar := scalar) file_upload_api st "UploadDocument"
                 (single_upload fn [] ct description)
       = (success_envelope [report], st) /\
     examined (success_envelope [report]) = Ok report /\
     subscript report "size" = Ok (PInt 0)).
Proof.
  intros Hty Hpart. split.
  - exists (from_bytes fn c ct). split; [by apply bind_param_file|done].
  - intros st fn' ct' description. repeat split; reflexivity.
Qed.

(** C5. A parameter that is not a file and has no text field in a
    multipart body is bound to its declared default; in particular the
    file alone, sent to the walker whose description defaults to the empty
    string, is reported with an empty description. *)
Theorem omitted_text_takes_default p (parts : list part) (d : value) :
  p_type p <> File -> p_name p ∉ text_names parts -> p_default p = Some d ->
  bind_param p (MultipartBody parts) = Ok (Some d) /\
  (forall schema inputs,
     NoDup (p_name <$> schema) -> p ∈ schema ->
     bind_request schema (MultipartBody parts) = Ok inputs ->
     inputs !! p_name p = Some d) /\
  (forall (st : store) (fn ct : string) (c : list Byte.byte),
     let report := PDict (list_to_map
       [ ("filename", PStr fn); ("size", PInt (Z.of_nat (length c)));
         ("content_type", PStr ct); ("description", PStr "") ]) in
     post_walker (scalar := scalar) file_upload_api st "UploadDocument"
                 (bare_upload fn c ct)
       = (success_envelope [report], st) /\
     examined (success_envelope [report]) = Ok report /\
     subscript report "description" = Ok (PStr "")).
Proof.
  intros Hty Hname Hd.
  assert (Hb : bind_param p (MultipartBody parts) = Ok (Some d)).
  { apply bind_param_default; [done| |done]. by apply text_part_no_name. }
  split; [done|]. split.
  - intros schema inputs Hschema Hp Hrun.
    pose proof (bind_request_lookup _ _ _ Hschema Hrun p Hp) as Hlook.
    congruence.
  - intros st fn ct c. repeat split; reflexivity.
Qed.




#[local] Instance walker_path_inj : Inj (=) (=) walker_path.
Proof. intros x y H. unfold walker_path in H. cbn in H. by injection H. Qed.

Lemma has_file_param_exists schema :
  has_file_param schema = true <-> exists p, p ∈ schema /\ p_type p = File.
Proof.
  unfold has_file_param. rewrite existsb_exists. split.
  - intros (p & Hp & Hf). exists p. split; [by apply list_elem_of_In|].
    unfold is_file in Hf. by destruct (p_type p).
  - intros (p & Hp & Hf). exists p. split; [by apply list_elem_of_In|].
    unfold is_file. by rewrite Hf.
Qed.

(** C7. In the API description every walker type has its path, and
    multipart/form-data is listed under the path's [requestBody.content]
    exactly when the walker declares a file parameter; in particular the
    path of the file-taking walker of the fixture is present and lists
    it. *)
Theorem multipart_advertised_iff_file (registry : gmap string (walker scalar store))
    (name : string) (wk : walker scalar store) :
  registry !! name = Some wk ->
  (exists content, request_content (openapi registry) (walker_path name) = Ok content) /\
  accepts_multipart (openapi registry) (walker_path name)
    = Ok (has_file_param (w_params wk)) /\
  (accepts_multipart (openapi registry) (walker_path name) = Ok true <->
   exists p, p ∈ w_params wk /\ p_type p = File) /\
  accepts_multipart (openapi (file_upload_api (scalar := scalar) (store := store)))
                    "/walker/UploadDocument" = Ok true /\
  accepts_multipart (openapi (file_upload_api (scalar := scalar) (store := store)))
                    "/walker/SimpleGreet" = Ok false.
Proof.
  intros Hwk.
  assert (Hpath : kmap (M2 := gmap string) walker_path (operation <$> registry)
                    !! walker_path name = Some (operation wk)).
  { rewrite lookup_kmap, lookup_fmap, Hwk; [done|apply _]. }
  assert (Hcontent : request_content (openapi registry) (walker_path name)
                     = Ok (PDict (media_types wk))).
  { unfold request_content, openapi. cbn.
    unfold get_or. rewrite lookup_singleton_eq. cbn.
    rewrite (TransportFacts.contains_Some _ _ _ Hpath). cbn.
    by rewrite Hpath. }
  assert (Hacc : accepts_multipart (openapi registry) (walker_path name)
                 = Ok (has_file_param (w_params wk))).
  { unfold accepts_multipart. rewrite Hcontent. cbn. unfold media_types.
    by destruct (has_file_param (w_params wk)). }
  split; [by eexists|]. split; [done|]. split; [|split].
  - rewrite Hacc, <- has_file_param_exists. split; [by intros [= ->]|by intros ->].
  - by vm_compute.
  - by vm_compute.
Qed.

End Claims.

(** ** The claims on sample requests *)

Lemma file_params_bound_by_name_witness :
  let schema := w_params (UploadMultipleFiles (scalar := sample_scalar) (store := unit)) in
  let c1 := list_byte_of_string "Content of file 1" in
  let c2 := list_byte_of_string "Content of file 2, slightly longer" in
  let parts := request_multipart
                 [ ("file1", ("first.txt", c1, "text/plain"));
                   ("file2", ("second.txt", c2, "text/plain")) ]
                 [ ("label", "batch_upload") ] in
  NoDup (p_name <$> schema) /\ NoDup (file_names parts) /\
  NoDup (text_names parts) /\ parts ≡ₚ rev parts /\
  bind_request schema (MultipartBody (rev parts)) =
    bind_request schema (MultipartBody parts) /\
  (forall inputs, bind_request schema (MultipartBody (rev parts)) = Ok inputs ->
     inputs !! "file2" = Some (Upload (from_bytes "second.txt" c2 "text/plain"))).
Proof.
  intros schema c1 c2 parts.
  assert (H1 : NoDup (p_name <$> schema)) by by_decision.
  assert (H2 : NoDup (file_names parts)) by by_decision.
  assert (H3 : NoDup (text_names parts)) by by_decision.
  assert (H4 : parts ≡ₚ rev parts) by apply Permutation_rev.
  destruct (file_params_bound_by_name (store := unit) schema parts (rev parts)
              H1 H2 H3 H4)
    as (Hsame & Hfile & _).
  repeat (split; [assumption|]).
  intros inputs Hrun.
  assert (Hin : FilePart "file2" "second.txt" "text/plain" c2 ∈ parts)
    by (solve [repeat constructor]).
  destruct (Hfile (Param "file2" File None true) "second.txt" "text/plain" c2
              eq_refl Hin) as [_ Hlook].
  apply Hlook; [solve [repeat constructor]|exact Hrun].
Defined.

Lemma upload_carries_part_witness :
  let p : param sample_scalar := Param "file" File None true in
  let parts := request_multipart [ ("file", ("empty.txt", [], "text/plain")) ]
                                 [ ("description", "Empty file") ] in
  p_type p = File /\
  file_part (p_name p) parts = Some ("empty.txt", "text/plain", []) /\
  exists f : UploadFile,
    bind_param p (MultipartBody parts) = Ok (Some (Upload f)) /\
    filename f = "empty.txt" /\ content f = [] /\ content_type f = "text/plain" /\
    size f = 0%Z.
Proof.
  intros p parts. split; [reflexivity|]. split; [reflexivity|].
  exact (proj1 (upload_carries_part (store := unit) p parts
                  "empty.txt" "text/plain" [] eq_refl eq_refl)).
Defined.

Lemma omitted_text_takes_default_witness :
  let p : param sample_scalar :=
    Param "description" Text (Some (Plain (PStr ""))) false in
  let parts := request_multipart
                 [ ("file", ("doc.txt", list_byte_of_string "File with default description",
                             "text/plain")) ] [] in
  p_type p <> File /\ (p_name p ∉ text_names parts) /\
  p_default p = Some (Plain (PStr "")) /\
  bind_param p (MultipartBody parts) = Ok (Some (Plain (PStr ""))).
Proof.
  intros p parts.
  assert (H1 : p_type p <> File) by discriminate.
  assert (H2 : p_name p ∉ text_names parts) by by_decision.
  split; [exact H1|]. split; [exact H2|]. split; [reflexivity|].
  exact (proj1 (omitted_text_takes_default (store := unit) p parts
                  (Plain (PStr "")) H1 H2 eq_refl)).
Defined.



Lemma multipart_advertised_iff_file_witness :
  let registry : gmap string (walker sample_scalar unit) := file_upload_api in
  registry !! "UploadMultipleFiles" = Some UploadMultipleFiles /\
  accepts_multipart (openapi registry) "/walker/UploadMultipleFiles" = Ok true.
Proof.
  intros registry. split; [reflexivity|].
  exact (proj1 (proj2 (multipart_advertised_iff_file registry "UploadMultipleFiles"
                         UploadMultipleFiles eq_refl))).
Defined.

End BinderFacts.

(* ===================================================================== *)
(** * Further properties of the settings module *)
(* ===================================================================== *)

Module SettingsMore.

Import Settings SettingsFacts.

(** ** Letter case and digits *)

Lemma char_lower_idem (c : ascii) : char_lower (char_lower c) = char_lower c.
Proof. destruct c as [[|] [|] [|] [|] [|] [|] [|] [|]]; reflexivity. Qed.

Lemma char_isdigit_lower (c : ascii) : char_isdigit (char_lower c) = char_isdigit c.
Proof. destruct c as [[|] [|] [|] [|] [|] [|] [|] [|]]; reflexivity. Qed.

Lemma lower_idem (s : string) : lower (lower s) = lower s.
Proof. induction s as [|c s IH]; [done|]. cbn. by rewrite char_lower_idem, IH. Qed.

Lemma all_isdigit_lower (s : string) :
  all_chars char_isdigit (lower s) = all_chars char_isdigit s.
Proof. induction s as [|c s IH]; [done|]. cbn. by rewrite char_isdigit_lower, IH. Qed.

Lemma isdigit_lower (s : string) : isdigit (lower s) = isdigit s.
Proof.
  destruct s as [|c s]; [done|].
  change (all_chars char_isdigit (lower (String c s))
          = all_chars char_isdigit (String c s)).
  apply all_isdigit_lower.
Qed.

(** On a word of [convert_type], in any letter case: no digits, and the
    boolean that [str_to_bool] gives. *)
Lemma convert_type_word (value w : string) (b : bool) :
  lower value = w ->
  isdigit w = false ->
  bool_decide (w ∈ ["true"; "false"; "t"; "f"; "yes"; "no"; "y"; "n"; "1"; "0"]) = true ->
  bool_decide (w ∈ ["yes"; "y"; "true"; "t"; "1"]) = b ->
  convert_type value = Ok (PBool b).
Proof.
  intros Hw Hd Hin Hb. unfold convert_type, str_to_bool.
  rewrite <- (isdigit_lower value), Hw, Hd, Hin. by rewrite Hb.
Qed.

(** X1. [convert_type] returns a boolean exactly on the eight words, read
    without regard to letter case: true for true, t, yes and y, false for
    false, f, no and n (and for nothing else, the strings 1 and 0
    included). *)
Theorem convert_type_bool_iff (value : string) (b : bool) :
  convert_type value = Ok (PBool b) <->
  (b = true /\ lower value ∈ ["true"; "t"; "yes"; "y"]) \/
  (b = false /\ lower value ∈ ["false"; "f"; "no"; "n"]).
Proof.
  split.
  - destruct (convert_type_cases value)
      as [(_ & _ & ->)|[(_ & _ & _ & ->)|[(_ & _ & _ & ->)|
         [(Hd & Hin & ->)|(_ & _ & ->)]]]];
      try discriminate.
    intros [= <-]. rewrite <- isdigit_lower in Hd. unfold str_to_bool.
    repeat (apply elem_of_cons in Hin as [Hin|Hin];
            [rewrite Hin in *;
             first [ discriminate Hd
                   | left; split; [reflexivity|by_decision]
                   | right; split; [reflexivity|by_decision] ] |]).
    by apply elem_of_nil in Hin.
  - intros [[-> Hin]|[-> Hin]];
      repeat (apply elem_of_cons in Hin as [Hin|Hin];
              [by apply (convert_type_word value _ _ Hin)|]);
      by apply elem_of_nil in Hin.
Qed.

Lemma all_chars_false (p : ascii -> bool) (s : string) :
  all_chars p s = false <->
  exists c, In c (list_ascii_of_string s) /\ p c = false.
Proof.
  induction s as [|c s IH]; cbn.
  - split; [done|by intros (c & [] & _)].
  - rewrite andb_false_iff, IH. split.
    + intros [Hc|(c' & Hin & Hc')]; [exists c; auto|exists c'; auto].
    + intros (c' & [<-|Hin] & Hc'); [by left|right; eauto].
Qed.

Lemma all_chars_true (p : ascii -> bool) (s : string) (c : ascii) :
  all_chars p s = true -> In c (list_ascii_of_string s) -> p c = true.
Proof.
  induction s as [|c' s IH]; cbn; [done|].
  intros [Hc Hs]%andb_true_iff [<-|Hin]; [done|by apply IH].
Qed.

(** The characters that pass [isdigit] and are no decimal digits. *)
Lemma superscript_iff (c : ascii) :
  (char_isdigit c = true /\ is_decimal c = false) <->
  code c ∈ [178; 179; 185]%N.
Proof.
  unfold char_isdigit, is_decimal, in_range. split.
  - intros [Hd Hdec]. rewrite Hdec in Hd. cbn [orb] in Hd.
    apply orb_true_iff in Hd as [Hd|Hd]; [apply orb_true_iff in Hd as [Hd|Hd]|];
      apply N.eqb_eq in Hd; rewrite Hd; by_decision.
  - intros Hc.
    repeat (apply elem_of_cons in Hc as [Hc|Hc]; [by rewrite Hc|]).
    by apply elem_of_nil in Hc.
Qed.

(** X2. On the strings of the model (code points up to U+00FF),
    [convert_type] raises exactly on the strings that pass [isdigit] and
    either start with more than 4300 decimal digits, and then it raises the
    [ValueError] of the limit of [int] with the number of these digits, or
    hold one of the superscript digits U+00B2, U+00B3, U+00B9, and then it
    raises the [ValueError] of an invalid literal; on every other string it
    returns. *)
Theorem convert_type_raises_iff (value : string) (e : exn) :
  convert_type value = Raise e <->
  isdigit value = true /\
  (((max_str_digits < leading_digits value)%N /\
    e = exceeds_limit (leading_digits value)) \/
   ((leading_digits value <= max_str_digits)%N /\
    (exists c, In c (list_ascii_of_string value) /\ code c ∈ [178; 179; 185]%N) /\
    e = invalid_literal value)).
Proof.
  split.
  - destruct (convert_type_cases value)
      as [(Hd & Hlt & ->)|[(_ & _ & _ & ->)|[(Hd & Hle & Hdec & ->)|
         [(_ & _ & ->)|(_ & _ & ->)]]]];
      try discriminate.
    + intros [= <-]. split; [done|]. by left.
    + intros [= <-]. split; [done|]. right. split; [done|]. split; [|done].
      apply all_chars_false in Hdec as (c & Hin & Hc). exists c. split; [done|].
      apply superscript_iff. split; [|done].
      destruct value as [|c0 value]; [done|].
      by apply (all_chars_true _ _ _ Hd).
  - intros (Hd & [(Hlt & ->)|(Hle & (c & Hin & Hc) & ->)]).
    + destruct (convert_type_cases value)
        as [(_ & _ & ->)|[(_ & Hle & _)|[(_ & Hle & _)|[(Hd' & _)|(Hd' & _)]]]];
        [done|lia|lia|congruence|congruence].
    + apply superscript_iff in Hc as [_ Hc].
      destruct (convert_type_cases value)
        as [(_ & Hlt & _)|[(_ & _ & Hdec & _)|[(_ & _ & _ & ->)|
           [(Hd' & _)|(Hd' & _)]]]];
        [lia| |done|congruence|congruence].
      by rewrite (all_chars_true _ _ _ Hdec Hin) in Hc.
Qed.

(** A boolean outcome of [convert_type] depends on the lower-case form of
    the text only. *)
Lemma convert_type_bool_lower (value : string) (b : bool) :
  convert_type value = Ok (PBool b) <->
  isdigit (lower value) = false /\
  lower value ∈ ["true"; "false"; "t"; "f"; "yes"; "no"; "y"; "n"; "1"; "0"] /\
  b = bool_decide (lower value ∈ ["yes"; "y"; "true"; "t"; "1"]).
Proof.
  rewrite isdigit_lower.
  destruct (convert_type_cases value)
    as [(Hd & _ & ->)|[(Hd & _ & _ & ->)|[(Hd & _ & _ & ->)|
       [(Hd & Hin & ->)|(Hd & Hin & ->)]]]].
  - split; [done|]. intros (? & _); congruence.
  - split; [done|]. intros (? & _); congruence.
  - split; [done|]. intros (? & _); congruence.
  - unfold str_to_bool. split; [by intros [= <-]|by intros (_ & _ & ->)].
  - split; [done|]. intros (_ & ? & _); done.
Qed.

(** X3. Two texts that differ in letter case only are the same to
    [str_to_bool], and [convert_type] turns both into the same boolean or
    neither into one. *)
Theorem letter_case_is_ignored (value value' : string) :
  lower value = lower value' ->
  str_to_bool value = str_to_bool value' /\
  str_to_bool (lower value) = str_to_bool value /\
  forall b, convert_type value = Ok (PBool b) <-> convert_type value' = Ok (PBool b).
Proof.
  intros Hsame. split; [|split].
  - unfold str_to_bool. by rewrite Hsame.
  - unfold str_to_bool. by rewrite lower_idem.
  - intros b. by rewrite !convert_type_bool_lower, Hsame.
Qed.

Lemma letter_case_is_ignored_witness :
  lower "YeS" = lower "yes" /\
  str_to_bool "YeS" = str_to_bool "yes" /\
  str_to_bool (lower "YeS") = str_to_bool "YeS" /\
  forall b, convert_type "YeS" = Ok (PBool b) <-> convert_type "yes" = Ok (PBool b).
Proof.
  split; [reflexivity|].
  apply (letter_case_is_ignored "YeS" "yes"). reflexivity.
Defined.

(** ** When the file stops the loading *)

(** The configuration file is read without regard to the environment. *)
Lemma load_config_file_environ (w : world) (env : gmap string string)
    (self : gmap string pyval) :
  load_config_file (with_environ w env) self = load_config_file w self.
Proof. reflexivity. Qed.

Lemma config_text_environ (w : world) (env : gmap string string) (f : string) :
  config_text (with_environ w env) f = config_text w f.
Proof. reflexivity. Qed.

(** X4. What the configuration file does to stop the loading, no variable
    of the environment can undo: when the file does not parse, [load_all]
    raises the error of the parser, and when the text the file gives for a
    field does not interpolate or is not convertible, [load_all] raises,
    under every environment, one that overrides the field included. *)
Theorem file_stops_the_loading (w : world) (self : gmap string pyval) (f : string) :
  f ∈ field_names ->
  (exists e, read_config w = Raise e) \/ text_ok (config_text w f) = false ->
  forall env : gmap string string,
    (exists e, load_all (with_environ w env) self = Raise e) /\
    (forall e, read_config w = Raise e ->
       load_all (with_environ w env) self = Raise e).
Proof.
  intros Hf Hbad env. unfold load_all. rewrite load_config_file_environ.
  split.
  - destruct (load_config_file w self) as [s1|e] eqn:Hrun; [|by exists e].
    exfalso.
    destruct (proj1 (load_config_file_returns w self)) as [[cp Hread] Hall];
      [by eexists|].
    destruct Hbad as [[e He]|Hbad]; [congruence|].
    rewrite forallb_elem_of in Hall. specialize (Hall f Hf). cbn beta in Hall.
    congruence.
  - intros e He. unfold load_config_file. by rewrite He.
Qed.

Lemma file_stops_the_loading_witness :
  "max_line_length" ∈ field_names /\
  text_ok (config_text broken_world "max_line_length") = false /\
  env_value broken_world "max_line_length" = Some "100" /\
  exists e, load_all broken_world defaults = Raise e.
Proof.
  assert (H1 : "max_line_length" ∈ field_names) by by_decision.
  assert (H2 : text_ok (config_text broken_world "max_line_length") = false)
    by (vm_compute; reflexivity).
  split; [exact H1|]. split; [exact H2|]. split; [reflexivity|].
  exact (proj1 (file_stops_the_loading broken_world defaults "max_line_length"
                  H1 (or_intror H2) (environ broken_world))).
Defined.

(** ** What loading leaves alone *)

Lemma load_all_frame (w : world) (self self' : gmap string pyval) (f : string) :
  load_all w self = Ok self' -> f ∉ field_names -> self' !! f = self !! f.
Proof.
  intros Hrun Hf. unfold load_all in Hrun.
  assert (Hpod : f <> "pod_manager_url") by (intros ->; apply Hf; by_decision).
  assert (Hmc : f <> "module_config") by (intros ->; apply Hf; by_decision).
  assert (Hmtr : f <> "modules_to_remote") by (intros ->; apply Hf; by_decision).
  destruct (load_config_file w self) as [s1|] eqn:H1; [|done].
  cbn [mbind res_bind] in Hrun.
  destruct (load_env_vars w s1) as [s2|] eqn:H2; [|done].
  cbn [mbind res_bind] in Hrun.
  pose proof (load_config_file_settled w self s1 H1 f) as E1.
  destruct (load_env_vars_settled w s1 s2 H2) as [_ E2].
  specialize (E2 f (or_introl Hpod)).
  destruct (load_modules_to_remote_settled w s2 self' Hrun) as (_ & _ & _ & E3).
  rewrite bool_decide_eq_false_2 in E1, E2 by done. cbn in E1, E2.
  rewrite (E3 f Hmtr Hmc). congruence.
Qed.

(** X5. [load_all] changes fields only: every attribute whose name is not
    a field is as before, so no text of the file or of the environment can
    reach the recorded path of the configuration file, which after
    [__post_init__] is always the one under the home directory. *)
Theorem loading_changes_fields_only (w : world) (self self' : gmap string pyval)
    (f : string) :
  load_all w self = Ok self' -> f ∉ field_names ->
  self' !! f = self !! f /\
  (forall r, __post_init__ w self = Ok r ->
     r.1 !! "config_file_path" =
     Some (PStr (path_join (path_join (home_dir w) ".jaclang") "config.ini"))).
Proof.
  intros Hrun Hf. split; [by apply (load_all_frame w)|].
  clear Hrun. intros [s w'] Hinit. unfold __post_init__ in Hinit. cbv zeta in Hinit.
  destruct (load_all (ensure_config _) _) as [t|] eqn:Hload; [|done].
  cbn [mbind res_bind] in Hinit. injection Hinit as <- <-.
  cbn [fst]. rewrite (load_all_frame _ _ _ "config_file_path" Hload); [|by_decision].
  by rewrite lookup_insert_eq.
Qed.

Lemma loading_changes_fields_only_witness :
  let self : gmap string pyval :=
    list_to_map [ ("pod_manager_url", PStr "http://pods"); ("module_config", PNone);
                  ("config_file_path", PStr "/etc/jac.ini") ] in
  exists self',
    load_all wide_world self = Ok self' /\
    ("config_file_path" ∉ field_names) /\
    self' !! "config_file_path" = self !! "config_file_path".
Proof.
  intros self.
  assert (Hf : "config_file_path" ∉ field_names) by by_decision.
  destruct (load_all wide_world self) as [self'|e] eqn:Hrun.
  - exists self'. split; [reflexivity|]. split; [exact Hf|].
    exact (proj1 (loading_changes_fields_only wide_world self self'
                    "config_file_path" Hrun Hf)).
  - exfalso.
    assert (Hok : match load_all wide_world self with Ok _ => true | Raise _ => false end
                  = true) by (vm_compute; reflexivity).
    rewrite Hrun in Hok. discriminate Hok.
Defined.

(** ** Loading again *)

Lemma decided_is_Some (text : option (result string)) (before after : option pyval) :
  decided text before after -> is_Some before -> is_Some after.
Proof. apply settled_is_Some. Qed.

Lemma decided_fun (text : option (result string)) (a b c : option pyval) :
  decided text a b -> decided text a c -> c = b.
Proof. apply settled_fun. Qed.

Lemma decided_idem (text : option (result string)) (a b c : option pyval) :
  decided text a b -> decided text b c -> c = b.
Proof.
  unfold decided. destruct text as [r|]; cbn; [|done].
  intros (v & Hv & ->) (v' & Hv' & ->). congruence.
Qed.

Lemma ordinary_field (f : string) :
  f <> "pod_manager_url" -> f <> "module_config" -> f <> "modules_to_remote" ->
  f ∉ ["pod_manager_url"; "module_config"; "modules_to_remote"].
Proof.
  intros ? ? ?. rewrite !not_elem_of_cons. repeat split; try done.
  apply not_elem_of_nil.
Qed.

Lemma merge_outcome_has_fields (w : world) (self self' : gmap string pyval) :
  has_fields self -> merge_outcome w self self' -> has_fields self'.
Proof.
  intros Hself (Hord & Hpod & Hnopod & Hsec & Hnosec & Hmtr).
  assert (Hmc : is_Some (self' !! "module_config")).
  { destruct (modules_dict w) as [r|] eqn:Hmod.
    - destruct (Hsec r eq_refl) as (d & _ & ->). by eexists.
    - eapply decided_is_Some; [by apply Hnosec|]. apply Hself. by_decision. }
  intros f Hf.
  destruct (decide (f = "modules_to_remote")) as [->|Hn1]; [by rewrite Hmtr|].
  destruct (decide (f = "module_config")) as [->|Hn2]; [done|].
  destruct (decide (f = "pod_manager_url")) as [->|Hn3].
  - destruct (environ w !! "POD_MANAGER_URL") as [u|] eqn:Hu.
    + rewrite (Hpod u eq_refl). by eexists.
    + eapply decided_is_Some; [by apply Hnopod|]. by apply Hself.
  - eapply decided_is_Some; [apply Hord; [done|by apply ordinary_field]|].
    by apply Hself.
Qed.

Lemma merge_outcome_again (w : world) (self self' self'' : gmap string pyval) :
  merge_outcome w self self' -> merge_outcome w self' self'' ->
  forall f, f ∈ field_names -> self'' !! f = self' !! f.
Proof.
  intros (Hord & Hpod & Hnopod & Hsec & Hnosec & Hmtr)
         (Hord' & Hpod' & Hnopod' & Hsec' & Hnosec' & Hmtr').
  assert (Hmc : self'' !! "module_config" = self' !! "module_config").
  { destruct (modules_dict w) as [r|] eqn:Hmod.
    - destruct (Hsec r eq_refl) as (d & Hd & ->).
      destruct (Hsec' r eq_refl) as (d' & Hd' & ->). congruence.
    - eapply decided_idem; [by apply Hnosec|by apply Hnosec']. }
  intros f Hf.
  destruct (decide (f = "modules_to_remote")) as [->|Hn1]; [congruence|].
  destruct (decide (f = "module_config")) as [->|Hn2]; [done|].
  destruct (decide (f = "pod_manager_url")) as [->|Hn3].
  - destruct (environ w !! "POD_MANAGER_URL") as [u|] eqn:Hu.
    + by rewrite (Hpod u eq_refl), (Hpod' u eq_refl).
    + eapply decided_idem; [by apply Hnopod|by apply Hnopod'].
  - eapply decided_idem;
      [apply Hord|apply Hord']; try done; by apply ordinary_field.
Qed.

(** X6. Loading again changes nothing: on an instance that has its
    fields, [load_all] followed by [load_all] in the same world gives
    exactly what one [load_all] gives, the same settings or the same
    exception. *)
Theorem reload_changes_nothing (w : world) (self : gmap string pyval) :
  has_fields self ->
  (self' ← load_all w self; load_all w self') = load_all w self.
Proof.
  intros Hself.
  destruct (load_all w self) as [self'|e] eqn:Hrun; [|done].
  cbn [mbind res_bind].
  pose proof (load_all_outcome w self self' Hrun) as Hout.
  pose proof (merge_outcome_has_fields w self self' Hself Hout) as Hself'.
  destruct (proj2 (load_all_returns w self' Hself')) as [self'' Hrun'].
  { apply (load_all_returns w self Hself). by exists self'. }
  rewrite Hrun'. f_equal. apply map_eq. intros f.
  destruct (decide (f ∈ field_names)) as [Hf|Hf].
  - apply (merge_outcome_again w self); [done| |done].
    by apply load_all_outcome.
  - by apply (load_all_frame w self').
Qed.

Lemma reload_changes_nothing_witness :
  has_fields defaults /\
  (self' ← load_all busy_world defaults; load_all busy_world self')
    = load_all busy_world defaults.
Proof.
  assert (H : has_fields defaults) by members_by_decision.
  split; [exact H|]. exact (reload_changes_nothing busy_world defaults H).
Defined.

Lemma ensure_config_idem (w : world) : ensure_config (ensure_config w) = ensure_config w.
Proof. unfold ensure_config. destruct (config_file w) eqn:H; cbn; by rewrite ?H. Qed.

(** X7. Building the settings a second time in the world the first
    construction left behind gives the same settings and the same world:
    creating the missing configuration file changes nothing of what is
    read, and an existing file is left as it is. *)
Theorem construction_is_repeatable (w : world) (self : gmap string pyval) :
  (r ← __post_init__ w self; __post_init__ r.2 self) = __post_init__ w self /\
  (forall r, __post_init__ w self = Ok r ->
     r.2 = ensure_config w /\ environ r.2 = environ w /\
     (is_Some (config_file w) -> r.2 = w) /\
     (config_file w = None -> config_file r.2 = Some {[ "settings" := [] ]})).
Proof.
  split.
  - unfold __post_init__. cbv zeta.
    destruct (load_all (ensure_config w) _) as [s|] eqn:Hrun; [|done].
    cbn [mbind res_bind snd].
    assert (Hhome : home_dir (ensure_config w) = home_dir w)
      by (unfold ensure_config; by destruct (config_file w)).
    by rewrite ensure_config_idem, Hhome, Hrun.
  - intros [s w'] Hinit. unfold __post_init__ in Hinit. cbv zeta in Hinit.
    destruct (load_all (ensure_config w) _) as [t|]; [|done].
    cbn [mbind res_bind] in Hinit. injection Hinit as <- <-. cbn [snd].
    unfold ensure_config. repeat split.
    + by destruct (config_file w).
    + intros [c Hc]. by rewrite Hc.
    + by intros ->.
Qed.

(** ** An empty variable *)

(** X15. On an instance that has its fields, in a world where nothing
    stops the loading, and for every field other than [pod_manager_url],
    [module_config] and [modules_to_remote]: a variable that is set to the
    empty string counts as set; an empty [JACLANG_<NAME>] shadows
    [JAC_<NAME>] and the configuration file, and the field ends up holding
    the empty string, whatever it held or was given elsewhere. *)
Theorem empty_variable_is_a_value (w : world) (self : gmap string pyval)
    (f : string) :
  has_fields self -> loads_cleanly w = true ->
  f ∈ field_names ->
  f ∉ ["pod_manager_url"; "module_config"; "modules_to_remote"] ->
  environ w !! ("JACLANG_" ++ upper f) = Some "" ->
  exists self' : gmap string pyval,
    load_all w self = Ok self' /\ self' !! f = Some (PStr "").
Proof.
  intros Hself Hclean Hf Hnot Hempty.
  destruct (proj2 (load_all_returns w self Hself) Hclean) as [self' Hrun].
  exists self'. split; [done|].
  destruct (load_all_outcome w self self' Hrun) as (Hord & _).
  specialize (Hord f Hf Hnot). unfold merged_text in Hord.
  rewrite Hempty in Hord. destruct Hord as (v & Hv & ->).
  vm_compute in Hv. congruence.
Qed.

Lemma empty_variable_is_a_value_witness :
  let w := set_env busy_world "JACLANG_MAX_LINE_LENGTH" "" in
  has_fields defaults /\ loads_cleanly w = true /\
  "max_line_length" ∈ field_names /\
  environ w !! ("JACLANG_" ++ upper "max_line_length") = Some "" /\
  environ w !! ("JAC_" ++ upper "max_line_length") = Some "120" /\
  exists self' : gmap string pyval,
    load_all w defaults = Ok self' /\ self' !! "max_line_length" = Some (PStr "").
Proof.
  intros w.
  assert (H1 : has_fields defaults) by members_by_decision.
  assert (H2 : loads_cleanly w = true) by (vm_compute; reflexivity).
  assert (H3 : "max_line_length" ∈ field_names) by by_decision.
  assert (H4 : "max_line_length" ∉
               ["pod_manager_url"; "module_config"; "modules_to_remote"])
    by by_decision.
  assert (H5 : environ w !! ("JACLANG_" ++ upper "max_line_length") = Some "")
    by reflexivity.
  repeat (split; [first [assumption|reflexivity]|]).
  exact (empty_variable_is_a_value w defaults "max_line_length" H1 H2 H3 H4 H5).
Defined.

(** ** The modules section *)

(** X8. With a [modules] section in a configuration file that parses,
    [module_config] after [load_modules_to_remote] is the dict of the
    section proxy, and [modules_to_remote] is the same dict: for every
    option of the section, and every option of [DEFAULT] that the section
    does not have, it holds the interpolated text of the option as a
    string, and it has no other key.  When an option does not interpolate,
    [load_modules_to_remote] raises. *)
Theorem module_config_holds_section (w : world) (self : gmap string pyval)
    (config_parser : gmap string section) (own : section) :
  read_config w = Ok config_parser -> config_parser !! "modules" = Some own ->
  (forall self', load_modules_to_remote w self = Ok self' ->
     exists d : gmap string pyval,
       self' !! "module_config" = Some (PDict d) /\
       self' !! "modules_to_remote" = Some (PDict d) /\
       (forall k, k ∈ options own (default_section config_parser) ->
          exists text,
            section_get "modules" own (default_section config_parser) k = Ok text /\
            d !! k = Some (PStr text) /\
            subscript (PDict d) k = Ok (PStr text)) /\
       (forall k, k ∉ options own (default_section config_parser) ->
          subscript (PDict d) k = Raise (KeyError k))) /\
  (forall k e, k ∈ options own (default_section config_parser) ->
     section_get "modules" own (default_section config_parser) k = Raise e ->
     exists e', load_modules_to_remote w self = Raise e').
Proof.
  intros Hread Hown. split.
  - intros self' Hrun.
    destruct (load_modules_to_remote_settled w self self' Hrun) as (Hmtr & Hsec & _).
    destruct (Hsec (section_dict "modules" own (default_section config_parser)))
      as (v & Hv & Hmc).
    { unfold modules_dict. by rewrite Hread, Hown. }
    destruct (section_dict_lookup _ _ _ _ Hv) as (d & -> & Hin & Hout).
    exists d. split; [done|]. split; [congruence|]. split.
    + intros k Hk. destruct (Hin k Hk) as (text & Hget & Hd).
      exists text. split; [done|]. split; [done|]. cbn. by rewrite Hd.
    + intros k Hk. cbn. by rewrite (Hout k Hk).
  - intros k e Hk Hbad.
    destruct (load_modules_to_remote w self) as [s|e'] eqn:Hrun; [|by exists e'].
    exfalso.
    destruct (load_modules_to_remote_settled w self s Hrun) as (_ & Hsec & _).
    destruct (Hsec (section_dict "modules" own (default_section config_parser)))
      as (v & Hv & _).
    { unfold modules_dict. by rewrite Hread, Hown. }
    destruct (section_dict_lookup _ _ _ _ Hv) as (d & _ & Hin & _).
    destruct (Hin k Hk) as (text & Hget & _). congruence.
Qed.

Lemma module_config_holds_section_witness :
  let own := [ ("numpy", "%(registry)s/numpy") ] in
  let w := shared_world in
  exists config_parser self',
    read_config w = Ok config_parser /\ config_parser !! "modules" = Some own /\
    default_section config_parser = [ ("registry", "local") ] /\
    load_modules_to_remote w defaults = Ok self' /\
    exists d : gmap string pyval,
      self' !! "module_config" = Some (PDict d) /\
      d !! "numpy" = Some (PStr "local/numpy") /\
      d !! "registry" = Some (PStr "local") /\
      subscript (PDict d) "pandas" = Raise (KeyError "pandas").
Proof.
  intros own w.
  destruct (read_config w) as [cp|e] eqn:Hread; [|discriminate Hread].
  assert (Hcp : cp = list_to_map
                  [ ("DEFAULT", [ ("registry", "local") ]);
                    ("settings", []);
                    ("modules", [ ("numpy", "%(registry)s/numpy") ]) ])
    by (by injection Hread as <-).
  assert (Hown : cp !! "modules" = Some own) by (rewrite Hcp; reflexivity).
  assert (Hdef : default_section cp = [ ("registry", "local") ])
    by (rewrite Hcp; reflexivity).
  destruct (load_modules_to_remote w defaults) as [self'|e] eqn:Hrun.
  2:{ exfalso.
      assert (Hok : match load_modules_to_remote shared_world defaults with
                    | Ok _ => true
                    | Raise _ => false
                    end = true) by (vm_compute; reflexivity).
      unfold w in Hrun. rewrite Hrun in Hok. discriminate Hok. }
  exists cp, self'. split; [reflexivity|]. split; [exact Hown|].
  split; [exact Hdef|]. split; [reflexivity|].
  destruct (proj1 (module_config_holds_section w defaults cp own Hread Hown) self' Hrun)
    as (d & Hmc & _ & Hin & Hout).
  exists d. split; [exact Hmc|].
  rewrite Hdef in Hin, Hout.
  destruct (Hin "numpy") as (t1 & Hg1 & Hd1 & _); [by_decision|].
  destruct (Hin "registry") as (t2 & Hg2 & Hd2 & _); [by_decision|].
  vm_compute in Hg1. vm_compute in Hg2.
  injection Hg1 as <-. injection Hg2 as <-.
  split; [exact Hd1|]. split; [exact Hd2|].
  apply Hout. by_decision.
Defined.

(** ** The names of the variables *)

(** The text that decides a field is the same after a variable that does
    not belong to the field is set. *)
Lemma merged_text_set_env (w : world) (name v f : string) :
  name <> "JACLANG_" ++ upper f -> name <> "JAC_" ++ upper f ->
  merged_text (set_env w name v) f = merged_text w f.
Proof.
  intros H1 H2. unfold merged_text, set_env. cbn [environ].
  rewrite !lookup_insert_ne by done. reflexivity.
Qed.

(** [module_config], and [modules_to_remote] with it, are the same after a
    variable that does not belong to [module_config] is set. *)
Lemma module_config_set_env (w : world) (name v : string)
    (self s1 s2 : gmap string pyval) :
  name <> "JACLANG_MODULE_CONFIG" -> name <> "JAC_MODULE_CONFIG" ->
  merge_outcome w self s1 -> merge_outcome (set_env w name v) self s2 ->
  s2 !! "module_config" = s1 !! "module_config".
Proof.
  intros Hn1 Hn2 (_ & _ & _ & Hsec & Hnosec & _) (_ & _ & _ & Hsec' & Hnosec' & _).
  change (modules_dict (set_env w name v)) with (modules_dict w) in *.
  destruct (modules_dict w) as [r|] eqn:Hmod.
  - destruct (Hsec r eq_refl) as (d & Hd & ->).
    destruct (Hsec' r eq_refl) as (d' & Hd' & ->). congruence.
  - specialize (Hnosec eq_refl). specialize (Hnosec' eq_refl).
    rewrite (merged_text_set_env w name v "module_config") in Hnosec' by done.
    by eapply decided_fun.
Qed.

(** X9. The variables of the environment that can change what [load_all]
    leaves in a field are the two prefixed names of the field, and
    POD_MANAGER_URL for [pod_manager_url]; [modules_to_remote] follows the
    variables of [module_config] and not its own.  Setting any other
    variable, to any value, leaves the field as it was, whenever the
    loading returns before and after. *)
Theorem variables_belong_to_one_field (w : world) (self s1 s2 : gmap string pyval)
    (f name v : string) :
  f ∈ field_names -> name ∉ variables_of f ->
  load_all w self = Ok s1 -> load_all (set_env w name v) self = Ok s2 ->
  s2 !! f = s1 !! f.
Proof.
  intros Hf Hname Hrun1 Hrun2.
  pose proof (load_all_outcome _ _ _ Hrun1) as Hout1.
  pose proof (load_all_outcome _ _ _ Hrun2) as Hout2.
  unfold variables_of in Hname.
  destruct (String.eqb_spec f "modules_to_remote") as [->|Hn1].
  { rewrite !not_elem_of_cons in Hname. destruct Hname as (Ha & Hb & _).
    pose proof Hout1 as (_ & _ & _ & _ & _ & ->).
    pose proof Hout2 as (_ & _ & _ & _ & _ & ->).
    by eapply module_config_set_env. }
  destruct (String.eqb_spec f "pod_manager_url") as [->|Hn2].
  { rewrite !not_elem_of_cons in Hname. destruct Hname as (Ha & Hb & Hc & _).
    destruct Hout1 as (_ & Hpod & Hnopod & _).
    destruct Hout2 as (_ & Hpod' & Hnopod' & _).
    assert (Hsame : environ (set_env w name v) !! "POD_MANAGER_URL"
                    = environ w !! "POD_MANAGER_URL")
      by (unfold set_env; cbn [environ]; by rewrite lookup_insert_ne).
    rewrite Hsame in Hpod', Hnopod'.
    destruct (environ w !! "POD_MANAGER_URL") as [u|] eqn:Hu.
    - by rewrite (Hpod u eq_refl), (Hpod' u eq_refl).
    - specialize (Hnopod eq_refl). specialize (Hnopod' eq_refl).
      rewrite merged_text_set_env in Hnopod' by done.
      by eapply decided_fun. }
  rewrite !not_elem_of_cons in Hname. destruct Hname as (Ha & Hb & _).
  destruct (decide (f = "module_config")) as [->|Hn3].
  { by eapply module_config_set_env. }
  destruct Hout1 as (Hord & _). destruct Hout2 as (Hord' & _).
  specialize (Hord f Hf (ordinary_field f Hn2 Hn3 Hn1)).
  specialize (Hord' f Hf (ordinary_field f Hn2 Hn3 Hn1)).
  rewrite merged_text_set_env in Hord' by done.
  by eapply decided_fun.
Qed.

Lemma variables_belong_to_one_field_witness :
  let w' := set_env busy_world "JAC_LSP_DEBUG" "0" in
  "max_line_length" ∈ field_names /\
  ("JAC_LSP_DEBUG" ∉ variables_of "max_line_length") /\
  exists s1 s2 : gmap string pyval,
    load_all busy_world defaults = Ok s1 /\ load_all w' defaults = Ok s2 /\
    s2 !! "max_line_length" = s1 !! "max_line_length".
Proof.
  intros w'.
  assert (H1 : "max_line_length" ∈ field_names) by by_decision.
  assert (H2 : "JAC_LSP_DEBUG" ∉ variables_of "max_line_length") by by_decision.
  split; [exact H1|]. split; [exact H2|].
  destruct (load_all busy_world defaults) as [s1|e] eqn:Hrun1.
  2:{ exfalso.
      assert (Hok : match load_all busy_world defaults with
                    | Ok _ => true
                    | Raise _ => false
                    end = true) by (vm_compute; reflexivity).
      rewrite Hrun1 in Hok. discriminate Hok. }
  destruct (load_all w' defaults) as [s2|e] eqn:Hrun2.
  2:{ exfalso.
      assert (Hok : match load_all (set_env busy_world "JAC_LSP_DEBUG" "0") defaults with
                    | Ok _ => true
                    | Raise _ => false
                    end = true) by (vm_compute; reflexivity).
      unfold w' in Hrun2. rewrite Hrun2 in Hok. discriminate Hok. }
  exists s1, s2. split; [reflexivity|]. split; [reflexivity|].
  exact (variables_belong_to_one_field busy_world defaults s1 s2
           "max_line_length" "JAC_LSP_DEBUG" "0" H1 H2 Hrun1 Hrun2).
Defined.

End SettingsMore.

(* ===================================================================== *)
(** * Further properties of the test clients *)
(* ===================================================================== *)

Module TransportMore.

Import TransportFacts.

(** ** When the reader raises *)

Lemma error_result_returns (e : gmap string pyval) :
  exists r, error_result e = Ok (PDict r).
Proof. destruct (error_result_fields e) as (r & Hr & _). by exists r. Qed.

Lemma truthy_get_Some (d : gmap string pyval) (k : string) :
  truthy (get d k) = true -> exists v, d !! k = Some v /\ truthy v = true.
Proof.
  unfold get. destruct (d !! k) as [v|]; cbn; [by exists v|done].
Qed.

(** The reader on an object: it raises exactly on a failure whose [error]
    is truthy and no object. *)
Lemma extract_dict_raises (d : gmap string pyval) (e : exn) :
  _extract_transport_response_data (PDict d) = Raise e <->
  e = AttributeError "get" /\
  is_Some (d !! "ok") /\ is_Some (d !! "data") /\
  truthy (get d "ok") = false /\
  exists err, d !! "error" = Some err /\ truthy err = true /\
              forall o, err <> PDict o.
Proof.
  unfold _extract_transport_response_data.
  destruct (d !! "ok") as [okv|] eqn:Hok.
  2:{ rewrite (contains_None _ _ Hok). cbn.
      split; [done|]. by intros (_ & [? ?] & _). }
  destruct (d !! "data") as [data|] eqn:Hdata.
  2:{ rewrite (contains_Some _ _ _ Hok), (contains_None _ _ Hdata). cbn.
      split; [done|]. by intros (_ & _ & [? ?] & _). }
  rewrite (contains_Some _ _ _ Hok), (contains_Some _ _ _ Hdata).
  rewrite (get_Some _ _ _ Hok), (get_Some _ _ _ Hdata). cbn [andb].
  destruct (truthy okv) eqn:Htruthy; cbn [andb negb].
  - destruct (is_none data); cbn [negb].
    + split; [done|]. by intros (_ & _ & _ & ? & _).
    + rewrite (getitem_Some _ _ _ Hdata). split; [done|].
      by intros (_ & _ & _ & ? & _).
  - destruct (truthy (get d "error")) eqn:Herr.
    + apply truthy_get_Some in Herr as (err & Herr & Ht).
      rewrite (getitem_Some _ _ _ Herr). cbn [mbind res_bind].
      destruct err as [| | | | | |o];
        try (split; [intros [= <-]; repeat split; eauto;
                     exists _; repeat split; eauto; congruence
                    |by intros (-> & _)]).
      destruct (error_result_returns o) as [r ->].
      split; [done|]. intros (_ & _ & _ & _ & err' & Herr' & _ & Hno).
      rewrite Herr in Herr'. injection Herr' as <-. by destruct (Hno o).
    + split; [done|]. intros (_ & _ & _ & _ & err & Herr' & Ht & _).
      unfold get in Herr. rewrite Herr' in Herr. cbn in Herr. congruence.
Qed.

(** X10. The reader raises in one case only, and then it is
    [AttributeError]: the response, bare or as the second element of a
    pair, is an object with [ok] and [data] whose [ok] is falsy and whose
    [error] is truthy and no object.  On every other response it
    returns. *)
Theorem reader_raises_iff (json_response : pyval) (e : exn) :
  _extract_transport_response_data json_response = Raise e <->
  e = AttributeError "get" /\
  exists d : gmap string pyval,
    (json_response = PDict d \/ exists status, json_response = PList [status; PDict d]) /\
    is_Some (d !! "ok") /\ is_Some (d !! "data") /\
    truthy (get d "ok") = false /\
    exists err, d !! "error" = Some err /\ truthy err = true /\
                forall o, err <> PDict o.
Proof.
  split.
  - intros Hraise.
    assert (Hdict : forall d, _extract_transport_response_data (PDict d) = Raise e ->
              e = AttributeError "get" /\
              is_Some (d !! "ok") /\ is_Some (d !! "data") /\
              truthy (get d "ok") = false /\
              exists err, d !! "error" = Some err /\ truthy err = true /\
                          forall o, err <> PDict o)
      by (intros d; apply extract_dict_raises).
    destruct json_response as [| | | | |l|d]; try discriminate Hraise.
    + destruct l as [|a [|b [|c l]]]; try discriminate Hraise.
      destruct b as [| | | | | |d]; try discriminate Hraise.
      rewrite extract_pair in Hraise.
      destruct (Hdict d Hraise) as (-> & Hrest). split; [done|].
      exists d. split; [right; by exists a|done].
    + destruct (Hdict d Hraise) as (-> & Hrest). split; [done|].
      exists d. split; [by left|done].
  - intros (-> & d & [->|[status ->]] & Hrest); [|rewrite extract_pair];
      by apply extract_dict_raises.
Qed.

(** X11. Only a list of exactly two elements is unwrapped, and only once:
    a list of any other length is handed back as it is, and a pair whose
    second element is no object gives that element, a nested pair
    included. *)
Theorem only_pairs_are_unwrapped :
  (forall l : list pyval, length l <> 2 ->
     _extract_transport_response_data (PList l) = Ok (PList l)) /\
  (forall status x : pyval, (forall d, x <> PDict d) ->
     _extract_transport_response_data (PList [status; x]) = Ok x) /\
  (forall status status' x : pyval,
     _extract_transport_response_data (PList [status; PList [status'; x]])
     = Ok (PList [status'; x])).
Proof.
  split; [|split].
  - intros l Hlen. destruct l as [|a [|b [|c l]]]; try done.
  - intros status x Hx. destruct x; try done. by destruct (Hx d).
  - done.
Qed.

(** ** Failures without a message *)

(** X12. Any falsy [ok] (false, 0, null, an empty string) with a non-empty
    error object is read as a failure, whatever [data] holds; the result
    carries the message of the error object, or the words Unknown error
    when it has none, and the code and the details when present. *)
Theorem failure_without_message (d e : gmap string pyval) (okv data : pyval) :
  d !! "ok" = Some okv -> truthy okv = false ->
  d !! "data" = Some data ->
  d !! "error" = Some (PDict e) -> e <> ∅ ->
  exists r : gmap string pyval,
    _extract_transport_response_data (PDict d) = Ok (PDict r) /\
    r !! "error" = Some (default (PStr "Unknown error") (e !! "message")) /\
    r !! "error_code" = e !! "code" /\
    r !! "error_details" = e !! "details" /\
    (e !! "message" = None -> r !! "error" = Some (PStr "Unknown error")).
Proof.
  intros Hok Hfalsy Hdata Herr Hne.
  destruct (error_result_fields e) as (r & Hr & Hre & Hrc & Hrd & _).
  exists r. split.
  - unfold _extract_transport_response_data.
    rewrite (contains_Some _ _ _ Hok), (contains_Some _ _ _ Hdata).
    rewrite (get_Some _ _ _ Hok), (get_Some _ _ _ Herr), (getitem_Some _ _ _ Herr).
    rewrite Hfalsy. cbn [andb negb truthy].
    rewrite bool_decide_eq_false_2 by done. exact Hr.
  - repeat split; try done. intros Hm. rewrite Hre. unfold get_or. by rewrite Hm.
Qed.

Lemma failure_without_message_witness :
  let e : gmap string pyval := {[ "code" := PStr "E42" ]} in
  let d : gmap string pyval :=
    list_to_map [ ("ok", PInt 0); ("data", PList [PInt 1]); ("error", PDict e) ] in
  d !! "ok" = Some (PInt 0) /\ truthy (PInt 0) = false /\
  d !! "data" = Some (PList [PInt 1]) /\ d !! "error" = Some (PDict e) /\ e <> ∅ /\
  exists r : gmap string pyval,
    _extract_transport_response_data (PDict d) = Ok (PDict r) /\
    r !! "error" = Some (PStr "Unknown error") /\
    r !! "error_code" = Some (PStr "E42").
Proof.
  intros e d.
  assert (Hne : e <> ∅).
  { intros H. apply (f_equal (fun m : gmap string pyval => m !! "code")) in H.
    vm_compute in H. discriminate H. }
  repeat (split; [first [reflexivity|exact Hne]|]).
  destruct (failure_without_message d e (PInt 0) (PList [PInt 1])
              eq_refl eq_refl eq_refl eq_refl Hne)
    as (r & Hr & _ & Hc & _ & Hm).
  exists r. split; [exact Hr|]. split; [by apply Hm|exact Hc].
Defined.

(** ** The token of a registration *)

(** X13. [register_user] gives the token found under [data], or in the
    response itself when it has no [data] key, and the empty string when
    there is no token; it raises [AttributeError] exactly when the
    response is no object or has a [data] that is no object, as the null
    of every failure envelope is. *)
Theorem register_user_token (response : pyval) :
  (forall r, response = PDict r -> r !! "data" = None ->
     register_user response = Ok (default (PStr "") (r !! "token"))) /\
  (forall r d, response = PDict r -> r !! "data" = Some (PDict d) ->
     register_user response = Ok (default (PStr "") (d !! "token"))) /\
  (forall e, register_user response = Raise e <->
     e = AttributeError "get" /\
     ((forall r, response <> PDict r) \/
      exists r x, response = PDict r /\ r !! "data" = Some x /\
                  forall d, x <> PDict d)).
Proof.
  unfold register_user, get_method, get_or. split; [|split].
  - intros r -> Hdata. rewrite Hdata. done.
  - intros r d -> Hdata. rewrite Hdata. done.
  - intros e. destruct response as [| | | | | |r];
      try (split; [intros [= <-]; split; [done|by left]|by intros (-> & _)]).
    destruct (r !! "data") as [x|] eqn:Hdata; cbn.
    + destruct x as [| | | | | |d];
        try (split; [intros [= <-]; split; [done|];
                     right; eexists _, _; repeat split; eauto; congruence
                    |by intros (-> & _)]).
      split; [done|]. intros (_ & [Hno|(r' & x & [= <-] & Hx & Hno)]).
      * by destruct (Hno r).
      * rewrite Hdata in Hx. injection Hx as <-. by destruct (Hno d).
    + split; [done|]. intros (_ & [Hno|(r' & x & [= <-] & Hx & _)]).
      * by destruct (Hno r).
      * congruence.
Qed.

(** ** The bytes of a multipart request *)

Lemma encode_app (s1 s2 : string) :
  encode (s1 ++ s2) = (encode s1 ++ encode s2)%list.
Proof.
  induction s1 as [|c s1 IH]; [done|].
  simpl. by rewrite IH, app_assoc.
Qed.

Lemma foldl_chunks {A : Type} (g : A -> list (list Byte.byte)) (l : list A)
    (acc : list (list Byte.byte)) :
  foldl (fun acc x => (acc ++ g x)%list) acc l = (acc ++ concat (g <$> l))%list.
Proof.
  revert acc. induction l as [|x l IH]; intros acc; cbn.
  - by rewrite app_nil_r.
  - by rewrite IH, app_assoc.
Qed.

(** The body is made of the bytes of the parts, the fields before the
    files, and the closing delimiter. *)
Lemma multipart_body_parts
    (files : list (string * (string * list Byte.byte * string)))
    (fields : list (string * string)) :
  multipart_body files fields =
  (concat (part_bytes <$> request_multipart files fields)
   ++ encode ("--" ++ boundary ++ "--" ++ crlf))%list.
Proof.
  unfold multipart_body, body_parts, request_multipart. cbv zeta.
  rewrite !foldl_chunks. cbn [app].
  rewrite !concat_app, fmap_app, concat_app. cbn [concat]. rewrite app_nil_r.
  f_equal. f_equal.
  - induction fields as [|[n v] fields IH]; [done|].
    cbn [fmap list_fmap concat] in *. rewrite concat_app. by rewrite IH.
  - induction files as [|[n [[fn c] ct]] files IH]; [done|].
    cbn [fmap list_fmap concat] in *. rewrite concat_app. by rewrite IH.
Qed.

(** X14. The values of form fields are written as they are: a field whose
    value holds a delimiter line and a disposition header gives byte for
    byte the body of two fields, so the body does not tell the two
    requests apart. *)
Theorem field_values_are_not_escaped
    (files : list (string * (string * list Byte.byte * string)))
    (a x b y : string) :
  a <> b ->
  multipart_body files
    [ (a, x ++ crlf ++ "--" ++ boundary ++ crlf
          ++ "Content-Disposition: form-data; name=" ++ dquote ++ b ++ dquote
          ++ crlf ++ crlf ++ y) ]
  = multipart_body files [ (a, x); (b, y) ].
Proof.
  intros _. rewrite !multipart_body_parts. f_equal.
  unfold request_multipart. rewrite !fmap_app, !concat_app. f_equal.
  cbn [fmap list_fmap concat part_bytes field_chunks fst snd].
  rewrite !encode_app, !app_nil_r, <- !app_assoc. reflexivity.
Qed.

Lemma field_values_are_not_escaped_witness :
  "note" <> "role" /\
  multipart_body []
    [ ("note", "hi" ++ crlf ++ "--" ++ boundary ++ crlf
               ++ "Content-Disposition: form-data; name=" ++ dquote ++ "role"
               ++ dquote ++ crlf ++ crlf ++ "admin") ]
  = multipart_body [] [ ("note", "hi"); ("role", "admin") ].
Proof.
  assert (H : "note" <> "role") by discriminate.
  split; [exact H|].
  exact (field_values_are_not_escaped [] "note" "hi" "role" "admin" H).
Defined.

End TransportMore.
